(** * Happy Hour Finder: the collection and publishing pipeline

    A shallow embedding of [happy_hours.py]: venue discovery through the
    places API ([fetch_happy_hour_data_live]), the happy-hour heuristic
    applied to each venue, the assembly of deals
    ([data_collector_agent]), the publishing stub
    ([whistle_api_creator_agent]) and the two-node workflow with its
    conditional edge ([decide_next_step]).

    Modelling conventions.
    - Python floats are rationals ([Q]); the only non-finite float the
      program produces, [float('inf')] in [calculate_distance_km], is the
      constructor [Inf] of [distance].
    - Python strings are [string]s of bytes; [lower] folds the ASCII
      letters, which is what [str.lower] does on ASCII text.
    - JSON objects are records whose optional keys are [option]s.
    - The network is an oracle of the environment, indexed by the number
      of events that happened before the call; every call is appended to
      the event trace that the functions thread through.
    - Exceptions are the [Raise] constructor of [result].
    - Logging and console output are left out. *)

From Stdlib Require Import Ascii String QArith Qabs.
From stdpp Require Import base strings list gmap sorting.

Local Open Scope string_scope.
Local Open Scope list_scope.
Local Close Scope Q_scope.

(** ** Strings *)

Module Str.

(** [c.lower()] on one ASCII character. *)
Definition lower_ascii (c : ascii) : ascii :=
  let n := nat_of_ascii c in
  if (65 <=? n)%nat && (n <=? 90)%nat then ascii_of_nat (n + 32) else c.

(** [s.lower()] *)
Fixpoint lower (s : string) : string :=
  match s with
  | EmptyString => EmptyString
  | String c s' => String (lower_ascii c) (lower s')
  end.

(** [needle in hay] on strings: substring search. *)
Fixpoint contains (needle hay : string) : bool :=
  String.prefix needle hay ||
  match hay with
  | EmptyString => false
  | String _ hay' => contains needle hay'
  end.

(** The text after the first occurrence of [c]; [None] when [c] does not
    occur, so [is_Some (after_char c s)] is Python's [c in s]. *)
Fixpoint after_char (c : ascii) (s : string) : option string :=
  match s with
  | EmptyString => None
  | String d s' => if Ascii.eqb c d then Some s' else after_char c s'
  end.

(** The text before the first occurrence of [c], the whole string when
    [c] does not occur: [s.split(c)[0]]. *)
Fixpoint before_char (c : ascii) (s : string) : string :=
  match s with
  | EmptyString => EmptyString
  | String d s' => if Ascii.eqb c d then EmptyString else String d (before_char c s')
  end.

(** [s.split(c)[1]], defined when [c in s]. *)
Definition split_1 (c : ascii) (s : string) : option string :=
  before_char c <$> after_char c s.

(** ASCII white space, as [str.strip] sees it. *)
Definition is_space (c : ascii) : bool :=
  let n := nat_of_ascii c in
  ((9 <=? n)%nat && (n <=? 13)%nat) || ((28 <=? n)%nat && (n <=? 32)%nat).

Fixpoint lstrip (s : string) : string :=
  match s with
  | EmptyString => EmptyString
  | String c s' => if is_space c then lstrip s' else s
  end.

Fixpoint rstrip (s : string) : string :=
  match s with
  | EmptyString => EmptyString
  | String c s' =>
      match rstrip s' with
      | EmptyString => if is_space c then EmptyString else String c EmptyString
      | r => String c r
      end
  end.

(** [s.strip()] *)
Definition strip (s : string) : string := rstrip (lstrip s).

End Str.

(** ** Numbers *)

(** [a < b] on floats. *)
Definition Qlt_bool (a b : Q) : bool := negb (Qle_bool b a).

(** Python's [max(a, b)]: the first argument unless the second is
    strictly greater. *)
Definition py_max (a b : Q) : Q := if Qlt_bool a b then b else a.

(** A distance in kilometres as [calculate_distance_km] returns it: a
    finite float or [float('inf')]. *)
Inductive distance : Type :=
  | Km (d : Q)
  | Inf.

(** [a < b] on distances. *)
Definition dist_ltb (a b : distance) : bool :=
  match a, b with
  | Km x, Km y => Qlt_bool x y
  | Km _, Inf => true
  | Inf, _ => false
  end.

(** [a <= b] on distances. *)
Definition dist_leb (a b : distance) : bool :=
  match a, b with
  | Km x, Km y => Qle_bool x y
  | _, Inf => true
  | Inf, Km _ => false
  end.

(** [a == b] on distances. *)
Definition dist_eqb (a b : distance) : bool :=
  match a, b with
  | Km x, Km y => Qeq_bool x y
  | Inf, Inf => true
  | _, _ => false
  end.

(** ** Exceptions *)

(** The outcome of a Python call: a value, or a raised exception, kept as
    its message [str(e)]. *)
Inductive result (A : Type) : Type :=
  | Ok (a : A)
  | Raise (e : string).
Arguments Ok {A} a.
Arguments Raise {A} e.

(** ** JSON records of the places API *)

(** One element of a place's ["reviews"] list. *)
Inductive review_json : Type :=
  | Review (text : option string)  (* an object; [None]: no "text" key *)
  | BadReview.                     (* no object, or a "text" that is no
                                      string: [.get] or [.lower] raises *)

(** What [place["geometry"]["location"]] holds. *)
Inductive geometry_json : Type :=
  | NoLocation               (* "geometry" or its "location" key is absent *)
  | Location (lat lng : Q)
  | BadLocation.             (* a location without "lat" or "lng": KeyError *)

(** A place object, as a text search returns it in ["results"] and as a
    details request returns it in ["result"]. *)
Record place_json : Type := {
  p_place_id : option string;
  p_geometry : geometry_json;
  p_name : option string;
  p_types : list string;                          (* absent: [[]] *)
  p_formatted_address : option string;
  p_vicinity : option string;
  p_formatted_phone_number : option string;
  p_website : option string;
  p_rating : option Q;
  p_opening_hours : option (option (list string)); (* its "weekday_text" *)
  p_reviews : list review_json                    (* absent: [[]] *)
}.

(** The empty object [{}]. *)
Definition empty_place : place_json :=
  {| p_place_id := None; p_geometry := NoLocation; p_name := None;
     p_types := []; p_formatted_address := None; p_vicinity := None;
     p_formatted_phone_number := None; p_website := None; p_rating := None;
     p_opening_hours := None; p_reviews := [] |}.

(** An entry of [all_places_found]: the dict built for one venue. *)
Record venue : Type := {
  v_name : option string;
  v_lat : Q;
  v_lng : Q;
  v_place_id : string;
  v_types : list string;
  v_formatted_address : string;
  v_phone : string;
  v_website : string;
  v_rating : option Q;
  v_opening_hours : list string;
  v_details : string;
  v_validity_hours : Q;
  v_distance_km : option distance   (* set by the final distance filter *)
}.

(** An entry of [formatted_deals]. *)
Record deal : Type := {
  store_name : option string;
  store_address : Q * Q;            (* "lat", "lng" *)
  offer_details : string;
  offer_validity_hours : Q;
  alert_radius_km : Z;
  provider : bool
}.

(** The state of the graph. [lat] and [lng] may be [None]: the collector
    tests for it. *)
Record GraphState : Type := {
  lat : option Q;
  lng : option Q;
  happy_hour_deals : list deal;
  api_creation_status : string;
  error_message : string;
  location_name : string
}.

Definition set_happy_hour_deals (v : list deal) (state : GraphState) : GraphState :=
  {| lat := lat state; lng := lng state; happy_hour_deals := v;
     api_creation_status := api_creation_status state;
     error_message := error_message state;
     location_name := location_name state |}.

Definition set_api_creation_status (v : string) (state : GraphState) : GraphState :=
  {| lat := lat state; lng := lng state;
     happy_hour_deals := happy_hour_deals state;
     api_creation_status := v;
     error_message := error_message state;
     location_name := location_name state |}.

Definition set_error_message (v : string) (state : GraphState) : GraphState :=
  {| lat := lat state; lng := lng state;
     happy_hour_deals := happy_hour_deals state;
     api_creation_status := api_creation_status state;
     error_message := v;
     location_name := location_name state |}.

(** ** The outside world *)

(** What the program does to the outside world, in the order it does it. *)
Inductive event : Type :=
  | TextSearch (query : string) (location : Q * Q) (radius : Z) (key : string)
  | Details (place_id : string) (key : string)
  | Publish (deals_json : list deal)      (* [create_whistle_api_mock] called *)
  | Playsound (sound_file : string).

Definition is_network_call (e : event) : bool :=
  match e with
  | TextSearch _ _ _ _ | Details _ _ => true
  | Publish _ | Playsound _ => false
  end.

(** The deal lists handed to the publishing stub, oldest first. *)
Definition publish_calls (trace : list event) : list (list deal) :=
  omap (fun e => match e with Publish d => Some d | _ => None end) trace.

(** The answer to a text search. *)
Inductive search_outcome : Type :=
  | SearchError (e : string)
      (* [requests.get], [raise_for_status], [json()] or [data["status"]]
         raises *)
  | SearchData (status : string) (results : option (list place_json)).

(** The answer to a details request. *)
Inductive details_outcome : Type :=
  | DetailsError (e : string)
  | DetailsData (status : option string) (result : option place_json).

(** Everything the program reads from outside. The first argument of the
    two network oracles is the number of events before the call, so the
    same request may be answered differently at different times. *)
Record environment : Type := {
  getenv_GOOGLE_PLACES_API_KEY : option string;
  textsearch : nat -> string -> Q * Q -> Z -> search_outcome;
  place_details : nat -> string -> details_outcome;
  geodesic : Q -> Q -> Q -> Q -> option Q;   (* kilometres; [None]: raises *)
  sound_file_exists : bool;
  playsound : nat -> result unit
}.

(** ** The program *)

Definition API_KEY_PLACEHOLDER : string := "YOUR_GOOGLE_PLACES_API_KEY_HERE".

(** The message of the [ValueError] raised without a usable key. *)
Definition API_KEY_ERROR : string :=
  "Google Places API Key is not set or is invalid. "
  +:+ "Please set GOOGLE_PLACES_API_KEY in your .env file or replace "
  +:+ "'YOUR_GOOGLE_PLACES_API_KEY_HERE' in the script.".

Definition search_queries : list string :=
  [ "hotel happy hour"; "hotel bar"; "hotel lounge"; "lodging happy hour";
    "bar"; "pub"; "lounge"; "brewery"; "restaurant with happy hour";
    "cocktail bar"; "wine bar" ].

Definition mention_keywords : list string :=
  [ "happy hour"; "drink special"; "half price"; "discount"; "specials"; "deal" ].

(** [int(x)]: truncation towards zero. In [int(radius_km * 1000)] the
    product is taken exactly here, where Python rounds it to a float
    first; the two agree whenever the exact product is a float, as it
    is for the 5.0 that the collector passes. *)
Definition int_of_float (x : Q) : Z := Z.quot (Qnum x) (Zpos (Qden x)).

(** [t in place_types] *)
Definition has_type (t : string) (place_types : list string) : bool :=
  bool_decide (t ∈ place_types).

(** [any(keyword in text for keyword in [...])] *)
Definition any_keyword_in (text : string) : bool :=
  existsb (fun keyword => Str.contains keyword text) mention_keywords.

(** The loop over [reviews[:5]], with its [break] at the first review
    that holds a keyword. *)
Fixpoint scan_reviews (reviews : list review_json) : result bool :=
  match reviews with
  | [] => Ok false
  | BadReview :: _ => Raise "AttributeError"
  | Review t :: rest =>
      let text := Str.lower (default "" t) in
      if any_keyword_in text then Ok true else scan_reviews rest
  end.

Definition has_happy_hour_mention (detailed_place : place_json) : result bool :=
  scan_reviews (take 5 (p_reviews detailed_place)).

(** [offer_details] and [offer_validity_hours] after the chain of tests
    on the place's types. *)
Definition offer_by_type (detailed_place : place_json) : string * Q :=
  let offer_details :=
    "Potential happy hour at " +:+ default "Unknown Place" (p_name detailed_place) +:+ "." in
  let offer_validity_hours := 2%Q in
  let place_types := p_types detailed_place in
  if has_type "lodging" place_types || has_type "hotel" place_types then
    let offer_details :=
      "Hotel Lobby Bar Happy Hour: Special deals on drinks and appetizers for guests and visitors." in
    let offer_validity_hours := 2%Q in
    if has_type "bar" place_types || has_type "restaurant" place_types then
      ("Hotel Bar/Restaurant Happy Hour: Discounted cocktails, wine, beer, and perhaps small plates.",
       (5 # 2)%Q)
    else (offer_details, offer_validity_hours)
  else if has_type "bar" place_types || has_type "pub" place_types
          || has_type "night_club" place_types then
    ("Happy Hour: Discounted drinks and possibly appetizers.", 3%Q)
  else if has_type "restaurant" place_types then
    ("Happy Hour: Special deals on drinks and appetizers.", 2%Q)
  else (offer_details, offer_validity_hours).

(** The rewrite under [if has_happy_hour_mention:]. *)
Definition confirm_offer (mention : bool) (offer : string * Q) : string * Q :=
  let '(offer_details, offer_validity_hours) := offer in
  if mention then
    ("Happy hour confirmed in recent reviews! Deals likely include: "
       +:+ match Str.split_1 ":" offer_details with
           | Some piece => Str.strip piece
           | None => "discounted drinks/food"
           end
       +:+ ". Call to confirm current offers.",
     py_max offer_validity_hours 2)
  else offer.

(** The dict appended to [all_places_found]. *)
Definition make_venue (place_id : string) (place_lat place_lng : Q)
    (place detailed_place : place_json) (offer : string * Q) : venue :=
  {| v_name := p_name detailed_place;
     v_lat := place_lat;
     v_lng := place_lng;
     v_place_id := place_id;
     v_types := p_types detailed_place;
     v_formatted_address :=
       default (default "Address not available" (p_vicinity place))
               (p_formatted_address detailed_place);
     v_phone := default "N/A" (p_formatted_phone_number detailed_place);
     v_website := default "N/A" (p_website detailed_place);
     v_rating := p_rating detailed_place;
     v_opening_hours := default [] (default None (p_opening_hours detailed_place));
     v_details := offer.1;
     v_validity_hours := offer.2;
     v_distance_km := None |}.

(** The local variables of [fetch_happy_hour_data_live] that its loops
    update, together with the event trace. *)
Record discovery : Type := {
  all_places_found : list venue;
  place_ids_found : gset string;
  trace : list event
}.

Definition log_event (e : event) (s : discovery) : discovery :=
  {| all_places_found := all_places_found s;
     place_ids_found := place_ids_found s;
     trace := trace s ++ [e] |}.

Definition set_distance_km (d : distance) (place : venue) : venue :=
  {| v_name := v_name place; v_lat := v_lat place; v_lng := v_lng place;
     v_place_id := v_place_id place; v_types := v_types place;
     v_formatted_address := v_formatted_address place;
     v_phone := v_phone place; v_website := v_website place;
     v_rating := v_rating place; v_opening_hours := v_opening_hours place;
     v_details := v_details place; v_validity_hours := v_validity_hours place;
     v_distance_km := Some d |}.

Section Program.

Variable env : environment.

(** The module-level constant: the environment variable, or the
    placeholder when it is not set. *)
Definition GOOGLE_PLACES_API_KEY : string :=
  default API_KEY_PLACEHOLDER (getenv_GOOGLE_PLACES_API_KEY env).

Definition calculate_distance_km (lat1 lng1 lat2 lng2 : Q) : distance :=
  match geodesic env lat1 lng1 lat2 lng2 with
  | Some d => Km d
  | None => Inf
  end.

(** The body of [for place in data["results"]]. [Raise] leaves the loop:
    the exception is caught by the handlers around the whole query. *)
Definition visit_place (place : place_json) (s : discovery) : result unit * discovery :=
  match p_place_id place with
  | Some place_id =>
      if negb (String.eqb place_id "") && bool_decide (place_id ∉ place_ids_found s) then
        match p_geometry place with
        | NoLocation => (Ok (), s)
        | BadLocation => (Raise "KeyError", s)
        | Location place_lat place_lng =>
            let s1 := log_event (Details place_id GOOGLE_PLACES_API_KEY) s in
            match place_details env (length (trace s)) place_id with
            | DetailsError e => (Raise e, s1)
            | DetailsData status result =>
                let detailed_place :=
                  if bool_decide (status = Some "OK")
                  then default empty_place result
                  else place in
                match has_happy_hour_mention detailed_place with
                | Raise e => (Raise e, s1)
                | Ok mention =>
                    let offer := confirm_offer mention (offer_by_type detailed_place) in
                    (Ok (),
                     {| all_places_found :=
                          all_places_found s1
                            ++ [make_venue place_id place_lat place_lng
                                           place detailed_place offer];
                        place_ids_found := place_ids_found s1 ∪ {[ place_id ]};
                        trace := trace s1 |})
                end
            end
        end
      else (Ok (), s)
  | None => (Ok (), s)
  end.

Fixpoint scan_results (results : list place_json) (s : discovery) : result unit * discovery :=
  match results with
  | [] => (Ok (), s)
  | place :: rest =>
      match visit_place place s with
      | (Ok _, s') => scan_results rest s'
      | (Raise e, s') => (Raise e, s')
      end
  end.

(** The body of [for query_term in search_queries], with its three
    handlers: whatever is raised is logged and the next query starts. *)
Definition run_query (lat lng : Q) (radius_meters : Z) (s : discovery)
    (query_term : string) : discovery :=
  let s1 := log_event (TextSearch query_term (lat, lng) radius_meters GOOGLE_PLACES_API_KEY) s in
  match textsearch env (length (trace s)) query_term (lat, lng) radius_meters with
  | SearchError _ => s1
  | SearchData status results =>
      if String.eqb status "OK" then
        match results with
        | Some results => (scan_results results s1).2
        | None => s1
        end
      else s1
  end.

(** The final loop: keep the places within the radius and record their
    distance. *)
Fixpoint filter_by_distance (lat lng radius_km : Q) (places : list venue) : list venue :=
  match places with
  | [] => []
  | place :: rest =>
      let distance := calculate_distance_km lat lng (v_lat place) (v_lng place) in
      if dist_leb distance (Km radius_km)
      then set_distance_km distance place :: filter_by_distance lat lng radius_km rest
      else filter_by_distance lat lng radius_km rest
  end.

Definition fetch_happy_hour_data_live (lat lng radius_km : Q) (w : list event)
    : result (list venue) * list event :=
  if String.eqb GOOGLE_PLACES_API_KEY "" || String.eqb GOOGLE_PLACES_API_KEY API_KEY_PLACEHOLDER
  then (Raise API_KEY_ERROR, w)
  else
    let radius_meters := int_of_float (radius_km * 1000) in
    let s := fold_left (run_query lat lng radius_meters) search_queries
               {| all_places_found := []; place_ids_found := ∅; trace := w |} in
    (Ok (filter_by_distance lat lng radius_km (all_places_found s)), trace s).

End Program.

(** Python's [sorted(xs, key=key)]: a stable sort that compares keys with
    [<] only. It is written here as an insertion sort; [x] goes in front
    of the first element whose key is not strictly smaller. *)
Section Sorted.

Context {A : Type} (key : A -> distance).

Fixpoint insert_sorted (x : A) (l : list A) : list A :=
  match l with
  | [] => [x]
  | y :: l' =>
      if dist_ltb (key y) (key x) then y :: insert_sorted x l' else x :: l
  end.

Definition sorted (l : list A) : list A := foldr insert_sorted [] l.

End Sorted.

Section Agents.

Variable env : environment.

(** The dict appended to [formatted_deals] for one raw deal. *)
Definition format_deal (raw_deal : venue) : deal :=
  let offer_validity := py_max 1 (v_validity_hours raw_deal) in
  {| store_name := v_name raw_deal;
     store_address := (v_lat raw_deal, v_lng raw_deal);
     offer_details := v_details raw_deal;
     offer_validity_hours := offer_validity;
     alert_radius_km := 1;
     provider := true |}.

(** The key of the final sort: the distance of a deal from the origin. *)
Definition distance_from (lat lng : Q) (x : deal) : distance :=
  calculate_distance_km env lat lng (store_address x).1 (store_address x).2.

(** The deals built from the raw deals, in the order of their distance
    from the origin. *)
Definition sorted_formatted_deals (lat lng : Q) (raw_deals : list venue) : list deal :=
  let formatted_deals := map format_deal raw_deals in
  sorted (distance_from lat lng) formatted_deals.

Definition data_collector_agent (state : GraphState) (w : list event)
    : GraphState * list event :=
  let radius := 5%Q in
  match lat state, lng state with
  | Some lat, Some lng =>
      match fetch_happy_hour_data_live env lat lng radius w with
      | (Ok raw_deals, w') =>
          (set_happy_hour_deals (sorted_formatted_deals lat lng raw_deals) state, w')
      | (Raise e, w') =>
          (set_error_message ("Error in Data Collector: " +:+ e) state, w')
      end
  | _, _ =>
      (set_error_message
         "Latitude and Longitude are required inputs for data collection." state, w)
  end.

(** The publishing stub. The call itself is the [Publish] event; a sound
    that fails to play is caught inside. *)
Definition create_whistle_api_mock (deals_json : list deal) (w : list event)
    : result string * list event :=
  let w := w ++ [Publish deals_json] in
  match deals_json with
  | _ :: _ =>
      let sound_file := "whistle1.mp3" in
      let w :=
        if sound_file_exists env then
          match playsound env (length w) with
          | Ok _ => w ++ [Playsound sound_file]
          | Raise _ => w
          end
        else w in
      (Ok "Whistle API successfully created/updated with new happy hour deals.", w)
  | [] => (Ok "Whistle API creation failed: No deals to publish.", w)
  end.

Definition whistle_api_creator_agent (state : GraphState) (w : list event)
    : GraphState * list event :=
  match happy_hour_deals state with
  | [] => (set_api_creation_status "No deals found to publish to Whistle API." state, w)
  | _ :: _ =>
      match create_whistle_api_mock (happy_hour_deals state) w with
      | (Ok status_message, w') => (set_api_creation_status status_message state, w')
      | (Raise e, w') =>
          (set_error_message ("Error in Whistle API Creator: " +:+ e) state, w')
      end
  end.

(** ** The workflow *)

(** The labels [decide_next_step] returns. *)
Inductive route : Type :=
  | end_with_error
  | end_no_deals
  | continue_to_whistle_api.

(** The nodes of the graph. *)
Inductive node : Type :=
  | data_collector
  | whistle_api_creator
  | END.

Definition decide_next_step (state : GraphState) : route :=
  if negb (String.eqb (error_message state) "") then end_with_error
  else
    match happy_hour_deals state with
    | [] => end_no_deals
    | _ :: _ => continue_to_whistle_api
    end.

(** The mapping given to [add_conditional_edges]. *)
Definition conditional_edges (r : route) : node :=
  match r with
  | continue_to_whistle_api => whistle_api_creator
  | end_no_deals => END
  | end_with_error => END
  end.

(** [app.invoke]: the entry point [data_collector], its conditional edge,
    and the edge from [whistle_api_creator] to [END]. *)
Definition app_invoke (initial_state : GraphState) (w : list event)
    : GraphState * list event :=
  let '(state, w) := data_collector_agent initial_state w in
  match conditional_edges (decide_next_step state) with
  | whistle_api_creator => whistle_api_creator_agent state w
  | data_collector | END => (state, w)
  end.

End Agents.

(** The state [main] starts the workflow from. *)
Definition initial_state (lat lng : Q) (location_name : string) : GraphState :=
  {| lat := Some lat; lng := Some lng; happy_hour_deals := [];
     api_creation_status := ""; error_message := "";
     location_name := location_name |}.

(** ** The classification, as the specification words it *)

(** An ordered table of rules: a test on the categories and the duration
    it gives. The first rule whose test holds wins. *)
Definition classification_rules : list ((list string -> bool) * Q) :=
  [ (fun c => (has_type "lodging" c || has_type "hotel" c)
                && (has_type "bar" c || has_type "restaurant" c), (5 # 2)%Q);
    (fun c => has_type "lodging" c || has_type "hotel" c, 2%Q);
    (fun c => has_type "bar" c || has_type "pub" c || has_type "night_club" c, 3%Q);
    (fun c => has_type "restaurant" c, 2%Q) ].

Fixpoint first_match (rules : list ((list string -> bool) * Q))
    (categories : list string) (default_duration : Q) : Q :=
  match rules with
  | [] => default_duration
  | (test, duration) :: rules' =>
      if test categories then duration
      else first_match rules' categories default_duration
  end.

Definition duration_by_rules (categories : list string) : Q :=
  first_match classification_rules categories 2%Q.

(** ** Vocabulary of the statements *)

(** [w'] is [w] followed by network calls only. *)
Definition network_extension (w w' : list event) : Prop :=
  exists evs, w' = w ++ evs /\ Forall (fun e => is_network_call e = true) evs.

(** The identifiers of the places found are pairwise different, and all
    of them are in the set of identifiers seen. *)
Definition dedup_invariant (s : discovery) : Prop :=
  NoDup (v_place_id <$> all_places_found s)
  /\ forall v, v ∈ all_places_found s -> v_place_id v ∈ place_ids_found s.

(** The record that a venue is built from, given the search result and
    the answer to its details request: the result of the details when
    their status is OK, the empty record when they have none, and the
    search result itself for any other status. *)
Definition record_used (place : place_json) (status : option string)
    (result : option place_json) : place_json :=
  if bool_decide (status = Some "OK") then default empty_place result else place.

(** Whether one review text holds a keyword, as the scan tests it. *)
Definition review_mentions (t : option string) : bool :=
  any_keyword_in (Str.lower (default "" t)).

(** The same text in capitals. *)
Definition upper_ascii (c : ascii) : ascii :=
  let n := nat_of_ascii c in
  if (97 <=? n)%nat && (n <=? 122)%nat then ascii_of_nat (n - 32) else c.

Fixpoint upper (s : string) : string :=
  match s with
  | EmptyString => EmptyString
  | String c s' => String (upper_ascii c) (upper s')
  end.

Section Keys.

Context {A : Type} (key : A -> distance).

(** [a] may stand in front of [b]. *)
Definition key_le (a b : A) : Prop := dist_leb (key a) (key b) = true.

(** The elements whose key equals [d], in their order in the list. *)
Definition with_key (d : distance) (l : list A) : list A :=
  List.filter (fun x => dist_eqb (key x) d) l.

End Keys.

(** The same place with other reviews. *)
Definition set_reviews (reviews : list review_json) (place : place_json) : place_json :=
  {| p_place_id := p_place_id place; p_geometry := p_geometry place;
     p_name := p_name place; p_types := p_types place;
     p_formatted_address := p_formatted_address place;
     p_vicinity := p_vicinity place;
     p_formatted_phone_number := p_formatted_phone_number place;
     p_website := p_website place; p_rating := p_rating place;
     p_opening_hours := p_opening_hours place; p_reviews := reviews |}.

(** The venue dict and the deal that one place gives, once its details
    and its mention flag are known. *)
Definition venue_of (place_id : string) (place_lat place_lng : Q)
    (place detailed_place : place_json) (mention : bool) : venue :=
  make_venue place_id place_lat place_lng place detailed_place
             (confirm_offer mention (offer_by_type detailed_place)).

(** ** Data for the examples *)

Module Demo.

Definition origin_lat : Q := (407128 # 10000)%Q.
Definition origin_lng : Q := (-740060 # 10000)%Q.

(** A stand-in for the geodesic: 111 km per degree along each axis. It is
    zero between a point and itself, as the geodesic is. *)
Definition grid_km (lat1 lng1 lat2 lng2 : Q) : option Q :=
  Some (111 * (Qabs (lat1 - lat2) + Qabs (lng1 - lng2)))%Q.

(** A search result at the given position. *)
Definition place_at (place_id name : string) (types : list string)
    (lat lng : Q) (reviews : list review_json) : place_json :=
  {| p_place_id := Some place_id; p_geometry := Location lat lng;
     p_name := Some name; p_types := types;
     p_formatted_address := None; p_vicinity := Some "1 Main St";
     p_formatted_phone_number := None; p_website := None; p_rating := None;
     p_opening_hours := None; p_reviews := reviews |}.

Definition the_tap : place_json :=
  place_at "A" "The Tap" ["bar"] origin_lat origin_lng
           [Review (Some "Loved the happy hour special")].

Definition quiet_bar : place_json :=
  place_at "Q" "Quiet Bar" ["bar"] origin_lat origin_lng
           [Review (Some "Nice and calm.")].

Definition the_inn : place_json :=
  place_at "I" "The Inn" ["lodging"] origin_lat origin_lng
           [Review (Some "Clean rooms.")].

Definition corner_pub : place_json :=
  place_at "B" "Corner Pub" ["pub"] origin_lat origin_lng [].


(** An environment with a key, where one query has results and every
    other query has none. *)
Definition env_with (key : option string) (query : string) (results : list place_json)
    (details : nat -> string -> details_outcome) : environment :=
  {| getenv_GOOGLE_PLACES_API_KEY := key;
     textsearch := fun _ q _ _ =>
       if String.eqb q query then SearchData "OK" (Some results)
       else SearchData "ZERO_RESULTS" None;
     place_details := details;
     geodesic := grid_km;
     sound_file_exists := false;
     playsound := fun _ => Ok () |}.

(** Details requests answered with a status that is not OK. *)
Definition details_not_found : nat -> string -> details_outcome :=
  fun _ _ => DetailsData (Some "NOT_FOUND") None.

(** One bar with a review that mentions a happy hour special. *)
Definition env_one_bar : environment :=
  env_with (Some "k") "bar" [the_tap] details_not_found.

(** One bar whose reviews mention nothing. *)
Definition env_quiet_bar : environment :=
  env_with (Some "k") "bar" [quiet_bar] details_not_found.

(** The first query returns two places; the details request for the
    first of them times out. *)
Definition env_timeout : environment :=
  env_with (Some "k") "hotel happy hour" [the_tap; corner_pub]
    (fun _ place_id =>
       if String.eqb place_id "A" then DetailsError "Read timed out."
       else DetailsData (Some "NOT_FOUND") None).

(** Two queries return the same place. *)
Definition env_twice : environment :=
  {| getenv_GOOGLE_PLACES_API_KEY := Some "k";
     textsearch := fun _ q _ _ =>
       if String.eqb q "bar" || String.eqb q "pub"
       then SearchData "OK" (Some [the_tap])
       else SearchData "ZERO_RESULTS" None;
     place_details := details_not_found;
     geodesic := grid_km;
     sound_file_exists := true;
     playsound := fun _ => Ok () |}.


(** No credential at all. *)
Definition env_no_key : environment :=
  env_with None "bar" [the_tap] details_not_found.

End Demo.

(** ** More vocabulary *)

Definition is_text_search (e : event) : bool :=
  match e with
  | TextSearch _ _ _ _ => true
  | _ => false
  end.

(** The credential an event carries to the places API, if any. *)
Definition event_key (e : event) : option string :=
  match e with
  | TextSearch _ _ _ key | Details _ key => Some key
  | Publish _ | Playsound _ => None
  end.

(** The place a details request asks for. *)
Definition details_of (e : event) : option string :=
  match e with
  | Details place_id _ => Some place_id
  | _ => None
  end.

(** A search result that the scan passes over: it has no identifier, an
    empty one or one already seen, or it has no location. *)
Definition passed_over (s : discovery) (place : place_json) : Prop :=
  match p_place_id place with
  | None => True
  | Some place_id =>
      place_id = "" \/ place_id ∈ place_ids_found s
      \/ p_geometry place = NoLocation
  end.

(** A text search that brings no place: it raises, reports a status
    other than OK, or has an empty or missing list of results. *)
Definition brings_nothing (o : search_outcome) : Prop :=
  match o with
  | SearchError _ => True
  | SearchData status results =>
      status <> "OK" \/ results = None \/ results = Some []
  end.

(** The five sentences that a confirmed offer can be when the name of
    the place holds no colon: one for each branch of the classification
    and the general one. *)
Definition confirmed_sentences : list string :=
  map (fun fragment =>
         "Happy hour confirmed in recent reviews! Deals likely include: "
         +:+ fragment +:+ ". Call to confirm current offers.")
      [ "Discounted cocktails, wine, beer, and perhaps small plates.";
        "Special deals on drinks and appetizers for guests and visitors.";
        "Discounted drinks and possibly appetizers.";
        "Special deals on drinks and appetizers.";
        "discounted drinks/food" ].

(** An environment in which every text search fails. *)
Definition env_offline : environment :=
  {| getenv_GOOGLE_PLACES_API_KEY := Some "k";
     textsearch := fun _ _ _ _ => SearchError "Connection refused";
     place_details := fun _ _ => DetailsError "Connection refused";
     geodesic := Demo.grid_km;
     sound_file_exists := true;
     playsound := fun _ => Ok () |}.

(** The reviews of a place can be read: the heuristic does not raise on
    them. *)
Definition readable (place : place_json) : Prop :=
  exists mention, has_happy_hour_mention place = Ok mention.

(** An environment in which no details request fails and every place,
    from a search or from a details request, has readable reviews. *)
Definition details_never_fail (env : environment) : Prop :=
  (forall n place_id,
      match place_details env n place_id with
      | DetailsError _ => False
      | DetailsData _ result => readable (default empty_place result)
      end)
  /\ (forall n q loc r,
         match textsearch env n q loc r with
         | SearchData _ (Some results) => Forall readable results
         | _ => True
         end).

(** The details requests sent since [w] are those for the places found,
    in the same order. *)
Definition looked_up (w : list event) (s : discovery) : Prop :=
  exists evs, trace s = w ++ evs
              /\ omap details_of evs = v_place_id <$> all_places_found s.

(** ** Looking up the name of a position: [get_location_from_coordinates] *)

(** One element of ["address_components"]. *)
Record address_component : Type := {
  c_types : list string;            (* absent: [[]] *)
  c_long_name : option string
}.

(** One element of the ["results"] of the geocoding service. *)
Record geocode_result : Type := {
  g_formatted_address : option string;
  g_address_components : list address_component   (* absent: [[]] *)
}.

(** The answer of the geocoding service. *)
Inductive geocode_outcome : Type :=
  | GeocodeRequestError (e : string)   (* a [RequestException] *)
  | GeocodeError (e : string)          (* any other exception, also from
                                          [json()] or [data["status"]] *)
  | GeocodeData (status : string) (results : list geocode_result).

(** The dict that [get_location_from_coordinates] returns. *)
Record location_info : Type := {
  i_lat : Q;
  i_lng : Q;
  i_formatted_address : string;
  i_city : string;
  i_state : string;
  i_country : string
}.

Definition set_city (v : string) (info : location_info) : location_info :=
  {| i_lat := i_lat info; i_lng := i_lng info;
     i_formatted_address := i_formatted_address info;
     i_city := v; i_state := i_state info; i_country := i_country info |}.

Definition set_state (v : string) (info : location_info) : location_info :=
  {| i_lat := i_lat info; i_lng := i_lng info;
     i_formatted_address := i_formatted_address info;
     i_city := i_city info; i_state := v; i_country := i_country info |}.

Definition set_country (v : string) (info : location_info) : location_info :=
  {| i_lat := i_lat info; i_lng := i_lng info;
     i_formatted_address := i_formatted_address info;
     i_city := i_city info; i_state := i_state info; i_country := v |}.

Definition set_formatted_address (v : string) (info : location_info) : location_info :=
  {| i_lat := i_lat info; i_lng := i_lng info;
     i_formatted_address := v;
     i_city := i_city info; i_state := i_state info; i_country := i_country info |}.

(** The body of [for component in ...]: the first of the three types
    that the component has decides which field it sets. *)
Definition read_component (info : location_info)
    (component : address_component) : location_info :=
  let types := c_types component in
  if has_type "locality" types then
    set_city (default "Unknown" (c_long_name component)) info
  else if has_type "administrative_area_level_1" types then
    set_state (default "Unknown" (c_long_name component)) info
  else if has_type "country" types then
    set_country (default "Unknown" (c_long_name component)) info
  else info.

Section Geocoding.

(** The geocoding service, asked with a position and a key. *)
Variable geocode : Q -> Q -> string -> geocode_outcome.
Variable env : environment.

Definition get_location_from_coordinates (lat lng : Q) : location_info :=
  match geocode lat lng (GOOGLE_PLACES_API_KEY env) with
  | GeocodeData status results =>
      let location_info :=
        {| i_lat := lat; i_lng := lng;
           i_formatted_address := "Unknown location";
           i_city := "Unknown"; i_state := "Unknown"; i_country := "Unknown" |} in
      if String.eqb status "OK" then
        match results with
        | result :: _ =>
            fold_left read_component (g_address_components result)
              (set_formatted_address
                 (default "Unknown location" (g_formatted_address result))
                 location_info)
        | [] => location_info
        end
      else location_info
  | GeocodeRequestError _ =>
      {| i_lat := lat; i_lng := lng;
         i_formatted_address := "Location lookup failed (Network Error)";
         i_city := "Unknown"; i_state := "Unknown"; i_country := "Unknown" |}
  | GeocodeError _ =>
      {| i_lat := lat; i_lng := lng;
         i_formatted_address := "Location lookup failed";
         i_city := "Unknown"; i_state := "Unknown"; i_country := "Unknown" |}
  end.

End Geocoding.

(** The long name of the last component that passes a test, as the loop
    leaves it in a field. *)
Definition last_long_name (test : address_component -> bool)
    (components : list address_component) : string :=
  match find test (rev components) with
  | Some component => default "Unknown" (c_long_name component)
  | None => "Unknown"
  end.

Definition names_city (c : address_component) : bool :=
  has_type "locality" (c_types c).

Definition names_state (c : address_component) : bool :=
  negb (has_type "locality" (c_types c))
  && has_type "administrative_area_level_1" (c_types c).

Definition names_country (c : address_component) : bool :=
  negb (has_type "locality" (c_types c))
  && negb (has_type "administrative_area_level_1" (c_types c))
  && has_type "country" (c_types c).

(** ** Detecting the position: [get_user_location_auto] *)

(** The answer of the geolocation service for an address. *)
Record ipapi_json : Type := {
  j_latitude : option Q;
  j_longitude : option Q;
  j_city : option string;
  j_region : option string;
  j_country_name : option string
}.

Inductive ipapi_outcome : Type :=
  | IpapiError (e : string)
  | IpapiData (location_data : ipapi_json).

(** The dict that [get_user_location_auto] returns. *)
Record detected_location : Type := {
  l_lat : option Q;
  l_lng : option Q;
  l_location_name : string;
  l_formatted_address : string;
  l_city : string;
  l_state : string;
  l_country : string
}.

(** The requests of the detection. *)
Inductive lookup_event : Type :=
  | IpifyRequest
  | IpapiRequest (ip_address : string).

(** The fixed position used when nothing can be detected. *)
Definition DEFAULT_LOCATION : detected_location :=
  {| l_lat := Some (13067439 # 1000000)%Q;
     l_lng := Some (80237617 # 1000000)%Q;
     l_location_name := "Chennai, Tamil Nadu, India (Default)";
     l_formatted_address := "Chennai, Tamil Nadu, India";
     l_city := "Chennai";
     l_state := "Tamil Nadu";
     l_country := "India" |}.

Section Detection.

(** The address that ipify reports, or the failure of that request. *)
Variable ipify : result string.
(** [ipaddress.ip_address(s).is_private]; it raises [ValueError] when
    [s] is no address. *)
Variable is_private : string -> result bool.
Variable ipapi : string -> ipapi_outcome.

Definition get_user_location_auto : result detected_location * list lookup_event :=
  let ip_address := match ipify with Ok ip => Some ip | Raise _ => None end in
  let requests := [IpifyRequest] in
  match ip_address with
  | None => (Ok DEFAULT_LOCATION, requests)
  | Some ip_address =>
      if String.eqb ip_address "" then (Ok DEFAULT_LOCATION, requests)
      else
        match is_private ip_address with
        | Raise e => (Raise e, requests)
        | Ok true => (Ok DEFAULT_LOCATION, requests)
        | Ok false =>
            let requests := requests ++ [IpapiRequest ip_address] in
            match ipapi ip_address with
            | IpapiError _ => (Ok DEFAULT_LOCATION, requests)
            | IpapiData location_data =>
                let city := default "Unknown" (j_city location_data) in
                let region := default "Unknown" (j_region location_data) in
                let country := default "Unknown" (j_country_name location_data) in
                (Ok {| l_lat := j_latitude location_data;
                       l_lng := j_longitude location_data;
                       l_location_name := city +:+ ", " +:+ region +:+ ", " +:+ country;
                       l_formatted_address := city +:+ ", " +:+ region +:+ ", " +:+ country;
                       l_city := city;
                       l_state := region;
                       l_country := country |},
                 requests)
            end
        end
  end.

End Detection.

(** ** Coordinates typed by the user: [_get_manual_coordinates] *)

(** One pass through the loop: it returns, or it starts again at a
    later prompt. *)
Inductive attempt : Type :=
  | Accepted (lat lng : Q) (location_name : string)
  | Rejected (next_prompt : nat).

Section Manual.

(** The line typed at the n-th prompt. *)
Variable input : nat -> string.
(** [float(s)]; [None] when it raises [ValueError]. A string that
    [float] reads as a number that is not finite is [None] as well: the
    loop rejects it at the same place, at the test of the range. *)
Variable float : string -> option Q.
(** The reverse geocoder: an address, nothing, or an exception. *)
Variable reverse : Q -> Q -> result (option string).
(** [f"Manually entered coordinates: {lat:.4f}, {lng:.4f}"] *)
Variable format_coordinates : Q -> Q -> string.

Definition manual_attempt (n : nat) : attempt :=
  let lat_input := Str.strip (input n) in
  let lng_input := Str.strip (input (n + 1)) in
  match float lat_input with
  | None => Rejected (n + 2)
  | Some lat =>
      match float lng_input with
      | None => Rejected (n + 2)
      | Some lng =>
          if negb (Qle_bool (-90) lat && Qle_bool lat 90) then Rejected (n + 2)
          else if negb (Qle_bool (-180) lng && Qle_bool lng 180) then Rejected (n + 2)
          else
            let location_name :=
              match reverse lat lng with
              | Ok (Some address) => address
              | Ok None | Raise _ => format_coordinates lat lng
              end in
            let confirm := Str.lower (Str.strip (input (n + 2))) in
            if bool_decide (confirm ∈ ["y"; "yes"])
            then Accepted lat lng location_name
            else Rejected (n + 3)
      end
  end.

(** The loop [while True], run for at most [fuel] passes from the n-th
    prompt on. *)
Fixpoint get_manual_coordinates (fuel n : nat) : option (Q * Q * string) :=
  match fuel with
  | O => None
  | S fuel =>
      match manual_attempt n with
      | Accepted lat lng location_name => Some (lat, lng, location_name)
      | Rejected next_prompt => get_manual_coordinates fuel next_prompt
      end
  end.

(** The prompt reached after [k] rejected passes, if the first [k]
    passes are rejected. *)
Fixpoint after_rejections (k n : nat) : option nat :=
  match k with
  | O => Some n
  | S k =>
      match manual_attempt n with
      | Rejected next_prompt => after_rejections k next_prompt
      | Accepted _ _ _ => None
      end
  end.

End Manual.

(** Whether the geocoding service found the position. *)
Definition geocode_found (o : geocode_outcome) : bool :=
  match o with
  | GeocodeData status (_ :: _) => String.eqb status "OK"
  | _ => false
  end.

(** ** More data for the examples *)

Module Demo2.

(** A user who types a latitude out of range, then a valid position that
    is not confirmed, then the same position and a confirmation. *)
Definition typed : nat -> string :=
  fun n => nth n [ "91"; "0"; " 40.7128"; "-74.0060 "; "n";
                   "40.7128"; "-74.0060"; " YES " ] "".

Definition read_float (s : string) : option Q :=
  if String.eqb s "91" then Some 91%Q
  else if String.eqb s "0" then Some 0%Q
  else if String.eqb s "40.7128" then Some Demo.origin_lat
  else if String.eqb s "-74.0060" then Some Demo.origin_lng
  else None.

Definition no_address : Q -> Q -> result (option string) := fun _ _ => Ok None.

Definition plain_name : Q -> Q -> string :=
  fun _ _ => "Manually entered coordinates".

(** A geocoding answer with a town, a state and a country. *)
Definition geocode_new_york : Q -> Q -> string -> geocode_outcome :=
  fun _ _ _ =>
    GeocodeData "OK"
      [ {| g_formatted_address := Some "New York, NY, USA";
           g_address_components :=
             [ {| c_types := ["locality"; "political"]; c_long_name := Some "New York" |};
               {| c_types := ["administrative_area_level_1"; "political"];
                  c_long_name := Some "New York State" |};
               {| c_types := ["country"; "political"];
                  c_long_name := Some "United States" |} ] |} ].

End Demo2.

(** The venue [v] was built from the search result [place] and an answer
    to its details request: the result has an identifier that is not
    empty and a position, the details were answered, the reviews of the
    record used could be read, and [v] is the venue made of all that.
    The last lines spell out the fields that have a fallback. *)
Definition answered_by (env : environment) (place : place_json) (v : venue) : Prop :=
  exists place_id place_lat place_lng n status result mention,
    p_place_id place = Some place_id /\ place_id <> ""
    /\ p_geometry place = Location place_lat place_lng
    /\ place_details env n place_id = DetailsData status result
    /\ has_happy_hour_mention (record_used place status result) = Ok mention
    /\ v = venue_of place_id place_lat place_lng place
              (record_used place status result) mention
    /\ v_place_id v = place_id /\ v_lat v = place_lat /\ v_lng v = place_lng
    /\ v_name v = p_name (record_used place status result)
    /\ v_formatted_address v
       = default (default "Address not available" (p_vicinity place))
                 (p_formatted_address (record_used place status result))
    /\ v_phone v
       = default "N/A" (p_formatted_phone_number (record_used place status result))
    /\ v_website v = default "N/A" (p_website (record_used place status result)).

(** The venue [v] was built from a result of one of the queries [qs],
    asked for the position [origin] and answered OK. *)
Definition found_among (env : environment) (origin : Q * Q) (qs : list string)
    (v : venue) : Prop :=
  exists n query_term radius results place,
    In query_term qs
    /\ textsearch env n query_term origin radius = SearchData "OK" (Some results)
    /\ In place results
    /\ answered_by env place v.

(** * Properties *)

(** ** Order facts on floats and distances *)

Lemma Qlt_bool_iff (a b : Q) : Qlt_bool a b = true <-> (a < b)%Q.
Proof.
  unfold Qlt_bool. rewrite negb_true_iff, <- not_true_iff_false, Qle_bool_iff.
  split; [apply Qnot_le_lt | apply Qlt_not_le].
Qed.

Lemma Qlt_bool_false_iff (a b : Q) : Qlt_bool a b = false <-> (b <= a)%Q.
Proof.
  unfold Qlt_bool. rewrite negb_false_iff. apply Qle_bool_iff.
Qed.

Lemma py_max_ge_l (a b : Q) : (a <= py_max a b)%Q.
Proof.
  unfold py_max. destruct (Qlt_bool a b) eqn:E.
  - apply Qlt_bool_iff in E. by apply Qlt_le_weak.
  - apply Qle_refl.
Qed.

Lemma py_max_ge_r (a b : Q) : (b <= py_max a b)%Q.
Proof.
  unfold py_max. destruct (Qlt_bool a b) eqn:E.
  - apply Qle_refl.
  - by apply Qlt_bool_false_iff.
Qed.

Lemma dist_leb_refl (a : distance) : dist_leb a a = true.
Proof. destruct a; simpl; [apply Qle_bool_iff, Qle_refl | done]. Qed.

Lemma dist_leb_trans (a b c : distance) :
  dist_leb a b = true -> dist_leb b c = true -> dist_leb a c = true.
Proof.
  destruct a, b, c; simpl; try done.
  rewrite !Qle_bool_iff. apply Qle_trans.
Qed.

Lemma dist_ltb_leb (a b : distance) : dist_ltb a b = true -> dist_leb a b = true.
Proof.
  destruct a, b; simpl; try done.
  rewrite Qlt_bool_iff, Qle_bool_iff. apply Qlt_le_weak.
Qed.

Lemma dist_not_ltb_leb (a b : distance) : dist_ltb a b = false -> dist_leb b a = true.
Proof.
  destruct a, b; simpl; try done.
  rewrite Qlt_bool_false_iff, Qle_bool_iff. done.
Qed.

Lemma dist_ltb_not_eqb (a b : distance) : dist_ltb a b = true -> dist_eqb a b = false.
Proof.
  destruct a, b; simpl; try done.
  rewrite Qlt_bool_iff. intros Hlt. apply not_true_iff_false.
  rewrite Qeq_bool_iff. intros Heq. rewrite Heq in Hlt. by apply Qlt_irrefl in Hlt.
Qed.

Lemma dist_eqb_ltb_l (a b d : distance) :
  dist_eqb a d = true -> dist_ltb b a = dist_ltb b d.
Proof.
  destruct a, b, d; simpl; try done.
  rewrite Qeq_bool_iff. intros Heq. unfold Qlt_bool. f_equal.
  apply eq_true_iff_eq. rewrite !Qle_bool_iff. by rewrite Heq.
Qed.

(** ** The two stages leave the rest of the state alone *)

Section Frame.

Variable env : environment.

Lemma data_collector_agent_cases (state : GraphState) (w : list event) :
  (exists deals w', data_collector_agent env state w = (set_happy_hour_deals deals state, w'))
  \/ (exists e w', data_collector_agent env state w = (set_error_message e state, w')
                   /\ e <> "").
Proof.
  unfold data_collector_agent.
  destruct (lat state) as [la|], (lng state) as [ln|]; try (right; eexists _, _; split; [done|done]).
  destruct (fetch_happy_hour_data_live env la ln 5 w) as [[raw|e] w'].
  - left. by eexists _, _.
  - right. eexists _, _. split; [done|]. done.
Qed.

Lemma whistle_api_creator_agent_cases (state : GraphState) (w : list event) :
  exists status w', whistle_api_creator_agent env state w
                    = (set_api_creation_status status state, w').
Proof.
  unfold whistle_api_creator_agent, create_whistle_api_mock.
  destruct (happy_hour_deals state); by eexists _, _.
Qed.

Lemma data_collector_agent_status (state : GraphState) (w : list event) :
  api_creation_status (data_collector_agent env state w).1 = api_creation_status state.
Proof.
  destruct (data_collector_agent_cases state w)
    as [(deals & w' & ->) | (e & w' & -> & _)]; done.
Qed.

End Frame.

(** C10. The collection stage never changes [lat], [lng],
    [location_name] or [api_creation_status]; the publish stage never
    changes [lat], [lng], [location_name] or [happy_hour_deals]. *)
Theorem stages_frame (env : environment) (state : GraphState) (w : list event) :
  let collected := (data_collector_agent env state w).1 in
  let published := (whistle_api_creator_agent env state w).1 in
  (lat collected = lat state /\ lng collected = lng state
   /\ location_name collected = location_name state
   /\ api_creation_status collected = api_creation_status state)
  /\ (lat published = lat state /\ lng published = lng state
      /\ location_name published = location_name state
      /\ happy_hour_deals published = happy_hour_deals state).
Proof.
  simpl. split.
  - destruct (data_collector_agent_cases env state w)
      as [(deals & w' & ->) | (e & w' & -> & _)]; done.
  - destruct (whistle_api_creator_agent_cases env state w) as (status & w' & ->). done.
Qed.

(** ** What discovery does to the event trace *)

Lemma network_extension_refl (w : list event) : network_extension w w.
Proof. exists []. by rewrite app_nil_r. Qed.

Lemma network_extension_trans (w1 w2 w3 : list event) :
  network_extension w1 w2 -> network_extension w2 w3 -> network_extension w1 w3.
Proof.
  intros (e1 & -> & H1) (e2 & -> & H2). exists (e1 ++ e2).
  split; [by rewrite app_assoc | by apply Forall_app].
Qed.

Lemma network_extension_step (w : list event) (e : event) :
  is_network_call e = true -> network_extension w (w ++ [e]).
Proof. intros He. exists [e]. split; [done | by constructor]. Qed.

Lemma network_extension_publish (w w' : list event) :
  network_extension w w' -> publish_calls w' = publish_calls w.
Proof.
  intros (evs & -> & Hevs). unfold publish_calls. rewrite omap_app.
  assert (omap (fun e => match e with Publish d => Some d | _ => None end) evs = [])
    as ->; [|by rewrite app_nil_r].
  induction Hevs as [|e evs He _ IH]; [done|].
  destruct e; simpl in *; done.
Qed.

Section Trace.

Variable env : environment.

Lemma visit_place_trace (place : place_json) (s : discovery) :
  network_extension (trace s) (trace (visit_place env place s).2).
Proof.
  unfold visit_place.
  destruct (p_place_id place) as [place_id|]; [|apply network_extension_refl].
  destruct (_ && _); [|apply network_extension_refl].
  destruct (p_geometry place); try apply network_extension_refl.
  destruct (place_details env _ place_id) as [e|status result]; simpl.
  - by apply network_extension_step.
  - destruct (has_happy_hour_mention _); simpl; by apply network_extension_step.
Qed.

Lemma scan_results_trace (results : list place_json) (s : discovery) :
  network_extension (trace s) (trace (scan_results env results s).2).
Proof.
  revert s. induction results as [|place rest IH]; intros s; simpl.
  - apply network_extension_refl.
  - pose proof (visit_place_trace place s) as Hv.
    destruct (visit_place env place s) as [[[]|e] s']; simpl in *; [|done].
    eapply network_extension_trans; [done | apply IH].
Qed.

Lemma run_query_trace (la ln : Q) (r : Z) (s : discovery) (q : string) :
  network_extension (trace s) (trace (run_query env la ln r s q)).
Proof.
  unfold run_query.
  set (s1 := log_event _ s).
  assert (network_extension (trace s) (trace s1)) as H1
    by (by apply network_extension_step).
  destruct (textsearch env _ q _ r) as [e|status results]; [done|].
  destruct (String.eqb status "OK"); [|done].
  destruct results as [results|]; [|done].
  eapply network_extension_trans; [done | apply scan_results_trace].
Qed.

Lemma run_queries_trace (la ln : Q) (r : Z) (qs : list string) (s : discovery) :
  network_extension (trace s) (trace (fold_left (run_query env la ln r) qs s)).
Proof.
  revert s. induction qs as [|q qs IH]; intros s; simpl.
  - apply network_extension_refl.
  - eapply network_extension_trans; [apply run_query_trace | apply IH].
Qed.

Lemma fetch_trace (la ln radius_km : Q) (w : list event) :
  network_extension w (fetch_happy_hour_data_live env la ln radius_km w).2.
Proof.
  unfold fetch_happy_hour_data_live.
  destruct (_ || _); simpl; [apply network_extension_refl|].
  apply (run_queries_trace la ln _ search_queries
           {| all_places_found := []; place_ids_found := ∅; trace := w |}).
Qed.

Lemma data_collector_agent_trace (state : GraphState) (w : list event) :
  network_extension w (data_collector_agent env state w).2.
Proof.
  unfold data_collector_agent.
  destruct (lat state) as [la|], (lng state) as [ln|];
    try apply network_extension_refl.
  pose proof (fetch_trace la ln 5 w) as H.
  by destruct (fetch_happy_hour_data_live env la ln 5 w) as [[raw|e] w'].
Qed.

End Trace.

(** ** The decision after the collection stage *)

Lemma decide_next_step_cases (state : GraphState) :
  match decide_next_step state with
  | end_with_error => error_message state <> ""
  | end_no_deals => error_message state = "" /\ happy_hour_deals state = []
  | continue_to_whistle_api => error_message state = "" /\ happy_hour_deals state <> []
  end.
Proof.
  unfold decide_next_step.
  destruct (String.eqb_spec (error_message state) "") as [->|Hne]; simpl; [|done].
  by destruct (happy_hour_deals state).
Qed.

Lemma whistle_publishes (env : environment) (state : GraphState) (w : list event) :
  happy_hour_deals state <> [] ->
  publish_calls (whistle_api_creator_agent env state w).2
  = publish_calls w ++ [happy_hour_deals state].
Proof.
  intros Hne. unfold whistle_api_creator_agent, create_whistle_api_mock.
  destruct (happy_hour_deals state) as [|d ds] eqn:E; [done|].
  destruct (sound_file_exists env); [destruct (playsound env _)|]; simpl;
    unfold publish_calls; rewrite ?omap_app; simpl; by rewrite ?app_nil_r.
Qed.

(** C3. After the collection stage: with an error message recorded the
    run ends at [end_with_error] and the publishing stub is not called;
    otherwise with no deals it ends at [end_no_deals], with the publish
    status and the error message both empty; otherwise the publish stage
    runs and hands the whole deal list to the publishing stub. *)
Theorem workflow_decision (env : environment) (state0 : GraphState) (w0 : list event) :
  api_creation_status state0 = "" ->
  let state1 := (data_collector_agent env state0 w0).1 in
  let w1 := (data_collector_agent env state0 w0).2 in
  let final := app_invoke env state0 w0 in
  match decide_next_step state1 with
  | end_with_error =>
      error_message state1 <> ""
      /\ conditional_edges end_with_error = END
      /\ final = (state1, w1)
      /\ publish_calls final.2 = publish_calls w0
  | end_no_deals =>
      error_message state1 = "" /\ happy_hour_deals state1 = []
      /\ conditional_edges end_no_deals = END
      /\ final = (state1, w1)
      /\ api_creation_status final.1 = "" /\ error_message final.1 = ""
      /\ publish_calls final.2 = publish_calls w0
  | continue_to_whistle_api =>
      error_message state1 = "" /\ happy_hour_deals state1 <> []
      /\ conditional_edges continue_to_whistle_api = whistle_api_creator
      /\ final = whistle_api_creator_agent env state1 w1
      /\ publish_calls final.2 = publish_calls w0 ++ [happy_hour_deals state1]
  end.
Proof.
  intros Hstatus. simpl.
  pose proof (data_collector_agent_trace env state0 w0) as Htrace.
  apply network_extension_publish in Htrace.
  pose proof (data_collector_agent_status env state0 w0) as Hframe.
  unfold app_invoke.
  destruct (data_collector_agent env state0 w0) as [state1 w1]; simpl in *.
  pose proof (decide_next_step_cases state1) as Hd.
  destruct (decide_next_step state1); simpl.
  - done.
  - destruct Hd as [He Hdeals]. repeat split; try done. congruence.
  - destruct Hd as [He Hdeals]. repeat split; try done.
    rewrite whistle_publishes by done. by rewrite Htrace.
Qed.

Lemma workflow_decision_witness :
  let state0 := initial_state Demo.origin_lat Demo.origin_lng "New York" in
  let state1 := (data_collector_agent Demo.env_one_bar state0 []).1 in
  api_creation_status state0 = ""
  /\ decide_next_step state1 = continue_to_whistle_api
  /\ publish_calls (app_invoke Demo.env_one_bar state0 []).2
     = [happy_hour_deals state1].
Proof.
  intros state0 state1.
  pose proof (workflow_decision Demo.env_one_bar state0 [] eq_refl) as H.
  assert (decide_next_step state1 = continue_to_whistle_api) as Hd
    by (vm_compute; reflexivity).
  fold state1 in H. simpl in H. rewrite Hd in H.
  split; [reflexivity|]. split; [exact Hd|]. apply H.
Defined.

(** ** The final sort *)

Section SortedFacts.

Context {A : Type} (key : A -> distance).

Lemma insert_sorted_perm (x : A) (l : list A) : insert_sorted key x l ≡ₚ x :: l.
Proof.
  induction l as [|y l IH]; simpl; [done|].
  destruct (dist_ltb (key y) (key x)); [|done].
  rewrite IH. apply Permutation_swap.
Qed.

Lemma sorted_perm (l : list A) : sorted key l ≡ₚ l.
Proof.
  induction l as [|x l IH]; simpl; [done|].
  by rewrite insert_sorted_perm, IH.
Qed.

Lemma insert_sorted_ordered (x : A) (l : list A) :
  StronglySorted (key_le key) l -> StronglySorted (key_le key) (insert_sorted key x l).
Proof.
  induction 1 as [|y l Hsorted IH Hy]; simpl.
  - repeat constructor.
  - destruct (dist_ltb (key y) (key x)) eqn:E.
    + constructor; [done|].
      rewrite insert_sorted_perm. constructor; [|done].
      by apply dist_ltb_leb.
    + apply dist_not_ltb_leb in E.
      constructor; [by constructor|].
      constructor; [done|].
      eapply Forall_impl; [exact Hy|].
      intros z Hz. by eapply dist_leb_trans.
Qed.

Lemma sorted_ordered (l : list A) : StronglySorted (key_le key) (sorted key l).
Proof.
  induction l as [|x l IH]; simpl; [constructor|].
  by apply insert_sorted_ordered.
Qed.

Lemma insert_sorted_with_key (d : distance) (x : A) (l : list A) :
  with_key key d (insert_sorted key x l) = with_key key d (x :: l).
Proof.
  induction l as [|y l IH]; [done|].
  cbn [insert_sorted]. destruct (dist_ltb (key y) (key x)) eqn:E; [|done].
  unfold with_key in *. cbn [List.filter] in *. rewrite IH.
  destruct (dist_eqb (key x) d) eqn:Ex; [|done].
  destruct (dist_eqb (key y) d) eqn:Ey; [|done].
  rewrite (dist_eqb_ltb_l _ _ _ Ex) in E.
  apply dist_ltb_not_eqb in E. congruence.
Qed.

Lemma sorted_with_key (d : distance) (l : list A) :
  with_key key d (sorted key l) = with_key key d l.
Proof.
  induction l as [|x l IH]; [done|].
  cbn [sorted foldr]. rewrite insert_sorted_with_key.
  unfold with_key in *. cbn [List.filter]. fold (sorted key l). by rewrite IH.
Qed.

End SortedFacts.

(** C6. For every list of raw deals and every origin, the assembled deal
    list is in ascending order of the distance of each deal's location
    from the origin, it holds the same deals as before the sort, and the
    sort is stable: the deals at any one distance keep the order in which
    they were encountered. *)
Theorem deals_sorted_by_distance (env : environment) (lat lng : Q)
    (raw_deals : list venue) (d : distance) :
  let out := sorted_formatted_deals env lat lng raw_deals in
  StronglySorted
    (fun a b => dist_leb (distance_from env lat lng a) (distance_from env lat lng b) = true)
    out
  /\ out ≡ₚ map format_deal raw_deals
  /\ with_key (distance_from env lat lng) d out
     = with_key (distance_from env lat lng) d (map format_deal raw_deals).
Proof.
  unfold sorted_formatted_deals. simpl. split; [|split].
  - apply (sorted_ordered (distance_from env lat lng)).
  - apply sorted_perm.
  - apply sorted_with_key.
Qed.

(** ** The deals the collector builds *)

Lemma sorted_formatted_deals_Forall (env : environment) (lat lng : Q)
    (raw_deals : list venue) (P : deal -> Prop) :
  (forall raw_deal, P (format_deal raw_deal)) ->
  Forall P (sorted_formatted_deals env lat lng raw_deals).
Proof.
  intros HP. unfold sorted_formatted_deals. rewrite sorted_perm.
  apply Forall_forall. intros d Hd. apply list_elem_of_In, in_map_iff in Hd.
  destruct Hd as (raw & <- & _). apply HP.
Qed.

(** C5. Whatever validity the raw deal carries, the deal built from it
    is valid for at least one hour and has an alert radius of 1 km; so
    has every deal of an assembled list. *)
Theorem deal_validity_and_radius (env : environment) (lat lng : Q)
    (raw_deal : venue) (raw_deals : list venue) :
  ((1 <= offer_validity_hours (format_deal raw_deal))%Q
   /\ alert_radius_km (format_deal raw_deal) = 1%Z)
  /\ Forall (fun d => (1 <= offer_validity_hours d)%Q /\ alert_radius_km d = 1%Z)
            (sorted_formatted_deals env lat lng raw_deals).
Proof.
  assert (forall raw, (1 <= offer_validity_hours (format_deal raw))%Q
                      /\ alert_radius_km (format_deal raw) = 1%Z) as H.
  { intros raw. split; [apply py_max_ge_l | done]. }
  split; [apply H | by apply sorted_formatted_deals_Forall].
Qed.

(** C1, as the program has it. A deal has no field [sourceConfirmed]:
    its one boolean field is [provider], and it is true for every deal,
    whatever the mention flag of the venue, so that it equals the flag
    exactly when the flag is true. So it is in the run from
    (40.7128, -74.0060) that finds one bar with a review of a "happy
    hour special": the flag of that bar is true and the deal has
    [provider] true. *)
Theorem provider_always_true (env : environment) (lat lng : Q)
    (raw_deal : venue) (raw_deals : list venue)
    (place_id : string) (place_lat place_lng : Q)
    (place detailed_place : place_json) (mention : bool) :
  provider (format_deal raw_deal) = true
  /\ Forall (fun d => provider d = true) (sorted_formatted_deals env lat lng raw_deals)
  /\ (provider (format_deal
                  (venue_of place_id place_lat place_lng place detailed_place mention))
        = mention
      <-> mention = true)
  /\ has_happy_hour_mention Demo.the_tap = Ok true
  /\ provider <$> happy_hour_deals
       (app_invoke Demo.env_one_bar
          (initial_state Demo.origin_lat Demo.origin_lng "New York") []).1
     = [true].
Proof.
  split; [done|]. split; [by apply sorted_formatted_deals_Forall|].
  split; [by destruct mention|].
  split; vm_compute; reflexivity.
Qed.

(** C1 as stated fails: the reviews of this bar mention nothing, so its
    mention flag is false, and the one deal of the run has [provider]
    true. *)
Lemma provider_differs_from_mention :
  exists (d : deal) (mention : bool),
    happy_hour_deals
      (app_invoke Demo.env_quiet_bar
         (initial_state Demo.origin_lat Demo.origin_lng "New York") []).1 = [d]
    /\ has_happy_hour_mention Demo.quiet_bar = Ok mention
    /\ provider d <> mention.
Proof.
  eexists _, false. split; [vm_compute; reflexivity|].
  split; [vm_compute; reflexivity|]. simpl. discriminate.
Qed.

(** ** Running without a credential *)

(** C9. When the key is not set, is empty or is the placeholder,
    discovery raises its configuration error with the trace untouched, so
    before any network call; the run from [main]'s initial state then
    takes the [end_with_error] edge to [END], with that message in
    [error_message], no deals and still no event. *)
Theorem missing_credential (env : environment) (lat lng radius_km : Q)
    (name : string) (w : list event) :
  getenv_GOOGLE_PLACES_API_KEY env = None
  \/ getenv_GOOGLE_PLACES_API_KEY env = Some ""
  \/ getenv_GOOGLE_PLACES_API_KEY env = Some API_KEY_PLACEHOLDER ->
  let collected := data_collector_agent env (initial_state lat lng name) w in
  let final := app_invoke env (initial_state lat lng name) w in
  fetch_happy_hour_data_live env lat lng radius_km w = (Raise API_KEY_ERROR, w)
  /\ decide_next_step collected.1 = end_with_error
  /\ conditional_edges (decide_next_step collected.1) = END
  /\ final = collected
  /\ error_message final.1 = "Error in Data Collector: " +:+ API_KEY_ERROR
  /\ happy_hour_deals final.1 = []
  /\ final.2 = w.
Proof.
  intros Hkey.
  assert (forall r, fetch_happy_hour_data_live env lat lng r w = (Raise API_KEY_ERROR, w))
    as Hfetch.
  { intros r. unfold fetch_happy_hour_data_live, GOOGLE_PLACES_API_KEY.
    destruct Hkey as [-> | [-> | ->]]; done. }
  simpl. unfold app_invoke, data_collector_agent. simpl.
  rewrite !Hfetch. simpl. done.
Qed.

Lemma missing_credential_witness :
  let final := app_invoke Demo.env_no_key
                 (initial_state Demo.origin_lat Demo.origin_lng "New York") [] in
  getenv_GOOGLE_PLACES_API_KEY Demo.env_no_key = None
  /\ error_message final.1 = "Error in Data Collector: " +:+ API_KEY_ERROR
  /\ happy_hour_deals final.1 = []
  /\ final.2 = [].
Proof.
  split; [reflexivity|].
  apply (missing_credential Demo.env_no_key Demo.origin_lat Demo.origin_lng 5
           "New York" [] (or_introl eq_refl)).
Defined.

(** ** The classification by category *)

Lemma offer_by_type_duration (detailed_place : place_json) :
  (offer_by_type detailed_place).2 = duration_by_rules (p_types detailed_place).
Proof.
  unfold offer_by_type, duration_by_rules, classification_rules, first_match.
  generalize (p_types detailed_place). intros c.
  destruct (has_type "lodging" c), (has_type "hotel" c), (has_type "bar" c),
    (has_type "restaurant" c), (has_type "pub" c), (has_type "night_club" c);
    reflexivity.
Qed.

Lemma duration_by_rules_values (c : list string) :
  duration_by_rules c = 2%Q \/ duration_by_rules c = (5 # 2)%Q
  \/ duration_by_rules c = 3%Q.
Proof.
  unfold duration_by_rules, classification_rules, first_match.
  repeat match goal with |- context [if ?b then _ else _] => destruct b end; auto.
Qed.

Lemma confirm_offer_duration (mention : bool) (detailed_place : place_json) :
  (confirm_offer mention (offer_by_type detailed_place)).2
  = duration_by_rules (p_types detailed_place).
Proof.
  rewrite <- offer_by_type_duration.
  destruct (offer_by_type detailed_place) as [details hours] eqn:E.
  assert (hours = duration_by_rules (p_types detailed_place)) as Hh
    by (by rewrite <- offer_by_type_duration, E).
  unfold confirm_offer. destruct mention; [|done]. simpl.
  destruct (duration_by_rules_values (p_types detailed_place)) as [H|[H|H]];
    rewrite Hh, H; reflexivity.
Qed.

Lemma format_deal_duration (place_id : string) (place_lat place_lng : Q)
    (place detailed_place : place_json) (mention : bool) :
  offer_validity_hours
    (format_deal (venue_of place_id place_lat place_lng place detailed_place mention))
  = duration_by_rules (p_types detailed_place).
Proof.
  unfold format_deal, venue_of, make_venue. simpl.
  rewrite confirm_offer_duration.
  destruct (duration_by_rules_values (p_types detailed_place)) as [H|[H|H]];
    rewrite H; reflexivity.
Qed.

(** C7. The chain of tests on a place's types is the ordered rule table:
    2.5 h for lodging or hotel together with bar or restaurant, else 2 h
    for lodging or hotel, else 3 h for bar, pub or night club, else 2 h
    for restaurant, else 2 h. That duration is the one of the venue and
    of its deal, with or without a mention. A place whose only type is
    lodging, with no mention in its reviews, gives a deal whose offer
    holds "Hotel Lobby Bar Happy Hour" and that is valid for 2 hours. *)
Theorem classification_first_match (place_id : string) (place_lat place_lng : Q)
    (place detailed_place : place_json) (mention : bool) :
  let categories := p_types detailed_place in
  let v := venue_of place_id place_lat place_lng place detailed_place mention in
  (offer_by_type detailed_place).2 = duration_by_rules categories
  /\ v_validity_hours v = duration_by_rules categories
  /\ offer_validity_hours (format_deal v) = duration_by_rules categories
  /\ (categories = ["lodging"] ->
      has_happy_hour_mention detailed_place = Ok mention ->
      mention = false ->
      Str.contains "Hotel Lobby Bar Happy Hour" (offer_details (format_deal v)) = true
      /\ offer_validity_hours (format_deal v) = 2%Q).
Proof.
  cbv zeta. split; [apply offer_by_type_duration|].
  split; [apply confirm_offer_duration|].
  split; [apply format_deal_duration|].
  intros Hc _ ->. split.
  - unfold format_deal, venue_of, make_venue, offer_by_type. simpl.
    rewrite Hc. vm_compute. reflexivity.
  - rewrite format_deal_duration, Hc. reflexivity.
Qed.

Lemma classification_first_match_witness :
  let d := format_deal
             (venue_of "I" Demo.origin_lat Demo.origin_lng Demo.the_inn Demo.the_inn false) in
  p_types Demo.the_inn = ["lodging"]
  /\ has_happy_hour_mention Demo.the_inn = Ok false
  /\ Str.contains "Hotel Lobby Bar Happy Hour" (offer_details d) = true
  /\ offer_validity_hours d = 2%Q.
Proof.
  split; [reflexivity|]. split; [reflexivity|].
  apply (classification_first_match "I" Demo.origin_lat Demo.origin_lng
           Demo.the_inn Demo.the_inn false); reflexivity.
Defined.

(** ** The mention heuristic *)

Lemma lower_upper_ascii (c : ascii) :
  Str.lower_ascii (upper_ascii c) = Str.lower_ascii c.
Proof. destruct c as [[] [] [] [] [] [] [] []]; reflexivity. Qed.

Lemma lower_lower_ascii (c : ascii) :
  Str.lower_ascii (Str.lower_ascii c) = Str.lower_ascii c.
Proof. destruct c as [[] [] [] [] [] [] [] []]; reflexivity. Qed.

Lemma lower_upper (s : string) : Str.lower (upper s) = Str.lower s.
Proof. induction s as [|c s IH]; simpl; [done|]. by rewrite lower_upper_ascii, IH. Qed.

Lemma lower_lower (s : string) : Str.lower (Str.lower s) = Str.lower s.
Proof. induction s as [|c s IH]; simpl; [done|]. by rewrite lower_lower_ascii, IH. Qed.

Lemma scan_reviews_well_formed (texts : list (option string)) :
  scan_reviews (Review <$> texts) = Ok (existsb review_mentions texts).
Proof.
  induction texts as [|t texts IH]; simpl; [done|].
  unfold review_mentions at 1. by destruct (any_keyword_in _).
Qed.

Lemma scan_reviews_first_match (pre : list (option string)) (t : option string)
    (post : list review_json) :
  Forall (fun t => review_mentions t = false) pre ->
  review_mentions t = true ->
  scan_reviews ((Review <$> pre) ++ Review t :: post) = Ok true.
Proof.
  intros Hpre Ht. induction Hpre as [|t' pre Ht' _ IH]; simpl.
  - unfold review_mentions in Ht. by rewrite Ht.
  - unfold review_mentions in Ht'. by rewrite Ht'.
Qed.

Lemma offer_by_type_positive (mention : bool) (detailed_place : place_json) :
  (0 < (confirm_offer mention (offer_by_type detailed_place)).2)%Q.
Proof.
  rewrite confirm_offer_duration.
  destruct (duration_by_rules_values (p_types detailed_place)) as [H|[H|H]];
    rewrite H; reflexivity.
Qed.

(** C8. The heuristic looks at the first five reviews only and tests the
    lower-cased text of each against the six keywords, so that a text in
    capitals counts like the text itself; at the first review that holds
    a keyword it answers true and looks no further, whatever follows.
    With a mention the offer becomes the phrase confirmed by reviews and
    the duration becomes [max(duration, 2)], which is at least 2 and at
    least the duration before. The duration of every enriched venue is
    positive. *)
Theorem mention_heuristic (detailed_place : place_json)
    (texts pre : list (option string)) (s : string) (t : option string)
    (post : list review_json) (offer : string * Q) (mention : bool) :
  length pre < 5 ->
  Forall (fun t => review_mentions t = false) pre ->
  review_mentions t = true ->
  has_happy_hour_mention detailed_place
  = has_happy_hour_mention (set_reviews (take 5 (p_reviews detailed_place)) detailed_place)
  /\ has_happy_hour_mention (set_reviews (Review <$> texts) detailed_place)
     = Ok (existsb
             (fun t => existsb (fun keyword => Str.contains keyword (Str.lower (default "" t)))
                         [ "happy hour"; "drink special"; "half price";
                           "discount"; "specials"; "deal" ])
             (take 5 texts))
  /\ review_mentions (Some (upper s)) = review_mentions (Some s)
  /\ review_mentions (Some (Str.lower s)) = review_mentions (Some s)
  /\ has_happy_hour_mention
       (set_reviews ((Review <$> pre) ++ Review t :: post) detailed_place) = Ok true
  /\ String.prefix "Happy hour confirmed in recent reviews!" (confirm_offer true offer).1
     = true
  /\ (confirm_offer true offer).2 = py_max offer.2 2
  /\ (2 <= (confirm_offer true offer).2)%Q
  /\ (offer.2 <= (confirm_offer true offer).2)%Q
  /\ (0 < (confirm_offer mention (offer_by_type detailed_place)).2)%Q.
Proof.
  intros Hlen Hpre Ht. unfold has_happy_hour_mention.
  destruct offer as [details hours]. simpl.
  repeat split.
  - by rewrite take_take, Nat.min_id.
  - rewrite <- fmap_take. apply scan_reviews_well_formed.
  - unfold review_mentions. simpl. by rewrite lower_upper.
  - unfold review_mentions. simpl. by rewrite lower_lower.
  - rewrite take_app_ge by (rewrite length_fmap; lia).
    rewrite length_fmap.
    destruct (5 - length pre) as [|n] eqn:E; [lia|]. simpl.
    by apply scan_reviews_first_match.
  - apply py_max_ge_r.
  - apply py_max_ge_l.
  - apply offer_by_type_positive.
Qed.

Lemma mention_heuristic_witness :
  let reviews := [Review (Some "Nice and calm."); Review (Some "HALF PRICE wings!");
                  BadReview] in
  review_mentions (Some "Nice and calm.") = false
  /\ review_mentions (Some "HALF PRICE wings!") = true
  /\ has_happy_hour_mention (set_reviews reviews Demo.quiet_bar) = Ok true
  /\ (2 <= (confirm_offer true ("Happy Hour: Discounted drinks.", 3%Q)).2)%Q.
Proof.
  split; [reflexivity|]. split; [reflexivity|].
  pose proof (mention_heuristic Demo.quiet_bar [] [Some "Nice and calm."]
                "" (Some "HALF PRICE wings!") [BadReview]
                ("Happy Hour: Discounted drinks.", 3%Q) true) as H.
  simpl length in H. specialize (H ltac:(lia)).
  specialize (H ltac:(repeat constructor) eq_refl).
  split; [apply H | apply H].
Defined.

(** ** Discovery: no place twice, nothing found is lost *)

Section Discovery.

Variable env : environment.

(** What [visit_place] does to a new place with a location whose details
    request is answered. *)
Lemma visit_place_new (place : place_json) (s : discovery) (place_id : string)
    (place_lat place_lng : Q) (status : option string) (result : option place_json) :
  p_place_id place = Some place_id -> place_id <> "" ->
  place_id ∉ place_ids_found s ->
  p_geometry place = Location place_lat place_lng ->
  place_details env (length (trace s)) place_id = DetailsData status result ->
  let detailed_place :=
    if bool_decide (status = Some "OK") then default empty_place result else place in
  visit_place env place s
  = match has_happy_hour_mention detailed_place with
    | Ok mention =>
        (Ok (),
         {| all_places_found :=
              all_places_found s
                ++ [venue_of place_id place_lat place_lng place detailed_place mention];
            place_ids_found := place_ids_found s ∪ {[ place_id ]};
            trace := trace s ++ [Details place_id (GOOGLE_PLACES_API_KEY env)] |})
    | Raise e => (Raise e, log_event (Details place_id (GOOGLE_PLACES_API_KEY env)) s)
    end.
Proof.
  intros Hid Hne Hnew Hgeo Hdet. unfold visit_place.
  rewrite Hid, Hgeo, Hdet.
  destruct (String.eqb_spec place_id "") as [|_]; [done|].
  rewrite bool_decide_eq_true_2 by done. simpl.
  by destruct (has_happy_hour_mention _).
Qed.

Lemma visit_place_found (place : place_json) (s : discovery) :
  let s' := (visit_place env place s).2 in
  all_places_found s' = all_places_found s
  \/ exists v, (v_place_id v ∉ place_ids_found s)
               /\ all_places_found s' = (all_places_found s ++ [v])
               /\ place_ids_found s' = place_ids_found s ∪ {[ v_place_id v ]}.
Proof.
  unfold visit_place.
  destruct (p_place_id place) as [place_id|]; [|by left].
  destruct (negb _); [|by left]. simpl.
  destruct (bool_decide_reflect (place_id ∉ place_ids_found s)) as [Hnew|]; [|by left].
  destruct (p_geometry place); try by left.
  destruct (place_details env _ place_id) as [e|status result]; [by left|].
  destruct (has_happy_hour_mention _); [|by left].
  right. eexists. split; [|split; reflexivity]. exact Hnew.
Qed.

Lemma visit_place_ids (place : place_json) (s : discovery) :
  place_ids_found s ⊆ place_ids_found (visit_place env place s).2.
Proof.
  unfold visit_place.
  destruct (p_place_id place) as [place_id|]; [|done].
  destruct (_ && _); [|done].
  destruct (p_geometry place); try done.
  destruct (place_details env _ place_id) as [e|status result]; [done|].
  destruct (has_happy_hour_mention _); simpl; set_solver.
Qed.

Lemma visit_place_invariant (place : place_json) (s : discovery) :
  dedup_invariant s -> dedup_invariant (visit_place env place s).2.
Proof.
  intros [Hnodup Hseen].
  pose proof (visit_place_ids place s) as Hids.
  destruct (visit_place_found place s) as [Heq | (v & Hnew & Heq & Hset)];
    unfold dedup_invariant; rewrite Heq.
  - split; [done|]. intros v Hv. apply Hids. by apply Hseen.
  - rewrite Hset. split.
    + rewrite fmap_app. apply NoDup_app. split; [done|]. split; [|repeat constructor; set_solver].
      intros id Hin Hin'. apply list_elem_of_fmap in Hin as (v' & -> & Hv').
      apply list_elem_of_singleton in Hin'. apply Hseen in Hv'. congruence.
    + intros v' Hv'. apply elem_of_app in Hv' as [Hv' | Hv'].
      * apply elem_of_union_l. by apply Hseen.
      * apply list_elem_of_singleton in Hv'. subst v'.
        by apply elem_of_union_r, elem_of_singleton.
Qed.


Lemma scan_results_invariant (results : list place_json) (s : discovery) :
  dedup_invariant s -> dedup_invariant (scan_results env results s).2.
Proof.
  revert s. induction results as [|place rest IH]; intros s Hs; simpl; [done|].
  pose proof (visit_place_invariant place s Hs) as Hv.
  destruct (visit_place env place s) as [[[]|e] s']; simpl in *; [|done].
  by apply IH.
Qed.


Lemma run_query_invariant (la ln : Q) (r : Z) (s : discovery) (q : string) :
  dedup_invariant s -> dedup_invariant (run_query env la ln r s q).
Proof.
  intros Hs. unfold run_query.
  assert (dedup_invariant (log_event (TextSearch q (la, ln) r (GOOGLE_PLACES_API_KEY env)) s))
    as H1 by done.
  destruct (textsearch env _ q _ r) as [e|status results]; [done|].
  destruct (String.eqb status "OK"); [|done].
  destruct results as [results|]; [|done].
  by apply scan_results_invariant.
Qed.



Lemma run_queries_invariant (la ln : Q) (r : Z) (qs : list string) (s : discovery) :
  dedup_invariant s -> dedup_invariant (fold_left (run_query env la ln r) qs s).
Proof.
  revert s. induction qs as [|q qs IH]; intros s Hs; simpl; [done|].
  by apply IH, run_query_invariant.
Qed.



Lemma filter_by_distance_ids (la ln radius_km : Q) (places : list venue) :
  v_place_id <$> filter_by_distance env la ln radius_km places
    `sublist_of` v_place_id <$> places.
Proof.
  induction places as [|place rest IH]; simpl; [done|].
  destruct (dist_leb _ _); simpl.
  - by apply sublist_skip.
  - by apply sublist_cons.
Qed.

Lemma fetch_NoDup (la ln radius_km : Q) (w w' : list event) (raw_deals : list venue) :
  fetch_happy_hour_data_live env la ln radius_km w = (Ok raw_deals, w') ->
  NoDup (v_place_id <$> raw_deals).
Proof.
  unfold fetch_happy_hour_data_live.
  destruct (_ || _); [done|].
  pose proof (run_queries_invariant la ln (int_of_float (radius_km * 1000))
                search_queries
                {| all_places_found := []; place_ids_found := ∅; trace := w |}) as Hinv.
  set (s := fold_left _ _ _) in *. clearbody s.
  intros H. injection H as <- _.
  eapply sublist_NoDup; [|apply filter_by_distance_ids].
  apply Hinv. split; [constructor | by intros v Hv%elem_of_nil].
Qed.

End Discovery.

(** C4. Whatever the queries answer, the candidates that discovery
    returns have pairwise different place identifiers, and the collector
    stores exactly one deal for each of them: its deal list is a
    rearrangement of the deals built from the candidates, one by one. *)
Theorem discovery_dedup (env : environment) (state : GraphState) (la ln : Q)
    (w w' : list event) (raw_deals : list venue) :
  lat state = Some la -> lng state = Some ln ->
  fetch_happy_hour_data_live env la ln 5 w = (Ok raw_deals, w') ->
  let deals := happy_hour_deals (data_collector_agent env state w).1 in
  NoDup (v_place_id <$> raw_deals)
  /\ deals ≡ₚ map format_deal raw_deals
  /\ length deals = length raw_deals.
Proof.
  intros Hlat Hlng Hfetch. cbv zeta.
  assert (happy_hour_deals (data_collector_agent env state w).1
          = sorted_formatted_deals env la ln raw_deals) as ->.
  { unfold data_collector_agent. by rewrite Hlat, Hlng, Hfetch. }
  split; [by eapply fetch_NoDup|].
  assert (sorted_formatted_deals env la ln raw_deals ≡ₚ map format_deal raw_deals)
    as Hperm by apply sorted_perm.
  split; [done|]. by rewrite Hperm, length_map.
Qed.

Lemma discovery_dedup_witness :
  let state := initial_state Demo.origin_lat Demo.origin_lng "New York" in
  exists (raw_deals : list venue) (w' : list event),
    fetch_happy_hour_data_live Demo.env_twice Demo.origin_lat Demo.origin_lng 5 []
    = (Ok raw_deals, w')
    /\ v_place_id <$> raw_deals = ["A"]
    /\ NoDup (v_place_id <$> raw_deals)
    /\ length (happy_hour_deals (data_collector_agent Demo.env_twice state []).1) = 1.
Proof.
  intros state.
  assert (exists raw_deals w',
             fetch_happy_hour_data_live Demo.env_twice Demo.origin_lat Demo.origin_lng 5 []
             = (Ok raw_deals, w')
             /\ v_place_id <$> raw_deals = ["A"]) as (raw_deals & w' & Hfetch & Hids).
  { eexists _, _. split; vm_compute; reflexivity. }
  exists raw_deals, w'. split; [exact Hfetch|]. split; [exact Hids|].
  destruct (discovery_dedup Demo.env_twice state Demo.origin_lat Demo.origin_lng
              [] w' raw_deals eq_refl eq_refl Hfetch) as (Hnodup & _ & Hlen).
  split; [exact Hnodup|].
  rewrite Hlen.
  rewrite <- (length_fmap v_place_id raw_deals), Hids. reflexivity.
Defined.

(** ** A details request that fails *)




(** ** The functions at work *)

Example lower_folds_case : Str.lower "Happy HOUR Special!" = "happy hour special!".
Proof. reflexivity. Qed.

Example contains_finds_keyword : Str.contains "deal" "a great deal here" = true.
Proof. reflexivity. Qed.

Example strip_trims_both_ends :
  Str.strip "  Special deals on drinks. " = "Special deals on drinks.".
Proof. reflexivity. Qed.

Example split_takes_second_piece : Str.split_1 ":" "Happy Hour: a: b" = Some " a".
Proof. reflexivity. Qed.

Example py_max_keeps_first_on_tie : py_max 2 (4 # 2) = 2%Q.
Proof. reflexivity. Qed.

Example sorted_is_stable :
  sorted (fun p : nat * Q => Km p.2) [(1, 3%Q); (2, 1%Q); (3, (6 # 2)%Q); (4, 1%Q)]
  = [(2, 1%Q); (4, 1%Q); (1, 3%Q); (3, (6 # 2)%Q)].
Proof. reflexivity. Qed.

(** One bar at the origin whose review tells of a happy hour special:
    one deal, valid for three hours, with the confirmed phrase, and the
    publishing stub is called with it. *)
Example one_bar_with_mention :
  let final := app_invoke Demo.env_one_bar
                 (initial_state Demo.origin_lat Demo.origin_lng "New York") [] in
  happy_hour_deals final.1
  = [ {| store_name := Some "The Tap";
         store_address := (Demo.origin_lat, Demo.origin_lng);
         offer_details :=
           "Happy hour confirmed in recent reviews! Deals likely include: "
           +:+ "Discounted drinks and possibly appetizers.. Call to confirm current offers.";
         offer_validity_hours := 3;
         alert_radius_km := 1;
         provider := true |} ]
  /\ api_creation_status final.1
     = "Whistle API successfully created/updated with new happy hour deals."
  /\ publish_calls final.2 = [happy_hour_deals final.1].
Proof. vm_compute. done. Qed.

(** Two queries that return the same place give one deal. *)
Example same_place_from_two_queries :
  let final := app_invoke Demo.env_twice
                 (initial_state Demo.origin_lat Demo.origin_lng "New York") [] in
  store_name <$> happy_hour_deals final.1 = [Some "The Tap"]
  /\ List.filter (fun e => match e with Details _ _ => true | _ => false end) final.2
     = [Details "A" "k"].
Proof. vm_compute. done. Qed.

(** Nothing found: the run ends with both messages empty and the
    publishing stub is not called. *)
Example nothing_found :
  let final := app_invoke (Demo.env_with (Some "k") "bar" [] Demo.details_not_found)
                 (initial_state Demo.origin_lat Demo.origin_lng "New York") [] in
  decide_next_step final.1 = end_no_deals
  /\ api_creation_status final.1 = "" /\ error_message final.1 = ""
  /\ publish_calls final.2 = [].
Proof. vm_compute. done. Qed.

(** * Further properties of the code *)

(** ** The requests that discovery sends *)

Section Requests.

Variable env : environment.

Local Abbreviation KEY := (GOOGLE_PLACES_API_KEY env).

Lemma visit_place_events (place : place_json) (s : discovery) :
  trace (visit_place env place s).2 = trace s
  \/ exists place_id,
       (place_id ∉ place_ids_found s)
       /\ trace (visit_place env place s).2 = trace s ++ [Details place_id KEY].
Proof.
  unfold visit_place.
  destruct (p_place_id place) as [place_id|]; [|by left].
  destruct (negb _); [|by left]. simpl.
  destruct (bool_decide_reflect (place_id ∉ place_ids_found s)) as [Hnew|]; [|by left].
  destruct (p_geometry place); try by left.
  right. exists place_id. split; [done|].
  destruct (place_details env _ place_id) as [e|status result]; [done|].
  by destruct (has_happy_hour_mention _).
Qed.

Lemma scan_results_events (results : list place_json) (s : discovery) :
  exists ids, trace (scan_results env results s).2
              = trace s ++ map (fun place_id => Details place_id KEY) ids.
Proof.
  revert s. induction results as [|place rest IH]; intros s; simpl.
  - exists []. by rewrite app_nil_r.
  - pose proof (visit_place_events place s) as Hv.
    destruct (visit_place env place s) as [[[]|e] s'] eqn:E; simpl in *.
    + destruct (IH s') as (ids & ->).
      destruct Hv as [-> | (id & _ & ->)]; [by exists ids|].
      exists (id :: ids). by rewrite <- app_assoc.
    + destruct Hv as [-> | (id & _ & ->)]; [exists []; by rewrite app_nil_r|].
      by exists [id].
Qed.

Lemma run_query_events (la ln : Q) (r : Z) (s : discovery) (q : string) :
  exists ids, trace (run_query env la ln r s q)
              = trace s ++ TextSearch q (la, ln) r KEY
                             :: map (fun place_id => Details place_id KEY) ids.
Proof.
  unfold run_query.
  destruct (textsearch env _ q _ r) as [e|status results]; [by exists []|].
  destruct (String.eqb status "OK"); [|by exists []].
  destruct results as [results|]; [|by exists []].
  destruct (scan_results_events results
              (log_event (TextSearch q (la, ln) r KEY) s)) as (ids & ->).
  exists ids. simpl. by rewrite <- app_assoc.
Qed.

Lemma run_queries_events (la ln : Q) (r : Z) (qs : list string) (s : discovery) :
  exists evs,
    trace (fold_left (run_query env la ln r) qs s) = trace s ++ evs
    /\ List.filter is_text_search evs = map (fun q => TextSearch q (la, ln) r KEY) qs
    /\ Forall (fun e => event_key e = Some KEY) evs.
Proof.
  revert s. induction qs as [|q qs IH]; intros s; simpl.
  - exists []. by rewrite app_nil_r.
  - destruct (IH (run_query env la ln r s q)) as (evs & -> & Hts & Hkey).
    destruct (run_query_events la ln r s q) as (ids & ->).
    exists (TextSearch q (la, ln) r KEY
              :: map (fun place_id => Details place_id KEY) ids ++ evs).
    split; [by rewrite <- app_assoc|]. split.
    + simpl. f_equal. rewrite List.filter_app, Hts.
      assert (List.filter is_text_search
                (map (fun place_id => Details place_id KEY) ids) = []) as ->; [|done].
      clear. by induction ids.
    + constructor; [done|]. apply Forall_app. split; [|done].
      clear. induction ids; by constructor.
Qed.

(** What a successful call of discovery returns, in terms of its loops. *)
Lemma fetch_ok (la ln radius_km : Q) (w w' : list event) (raw_deals : list venue) :
  fetch_happy_hour_data_live env la ln radius_km w = (Ok raw_deals, w') ->
  exists s,
    s = fold_left (run_query env la ln (int_of_float (radius_km * 1000)))
          search_queries
          {| all_places_found := []; place_ids_found := ∅; trace := w |}
    /\ raw_deals = filter_by_distance env la ln radius_km (all_places_found s)
    /\ w' = trace s
    /\ KEY <> "" /\ KEY <> API_KEY_PLACEHOLDER.
Proof.
  unfold fetch_happy_hour_data_live.
  destruct (String.eqb_spec KEY "") as [|Hne]; [done|].
  destruct (String.eqb_spec KEY API_KEY_PLACEHOLDER) as [|Hnp]; [done|].
  cbn [orb]. intros H. eexists. split; [reflexivity|].
  set (s := fold_left _ _ _) in *. clearbody s.
  injection H as <- <-. done.
Qed.

End Requests.

(** X1. With a usable key and the radius of 5 km that the collector
    asks for, discovery sends the eleven text searches, in the order of
    [search_queries], each for the origin, for 5000 metres and with the
    configured key, whatever the answers are; every other request in
    between is a network call as well. *)
Theorem discovery_sends_every_query (env : environment) (lat lng : Q)
    (w w' : list event) (raw_deals : list venue) :
  fetch_happy_hour_data_live env lat lng 5 w = (Ok raw_deals, w') ->
  exists evs,
    w' = w ++ evs
    /\ List.filter is_text_search evs
       = map (fun q => TextSearch q (lat, lng) 5000 (GOOGLE_PLACES_API_KEY env))
             search_queries
    /\ Forall (fun e => is_network_call e = true) evs.
Proof.
  intros (s & Hs & _ & -> & _)%fetch_ok.
  change (int_of_float (5 * 1000)) with 5000%Z in Hs.
  destruct (run_queries_events env lat lng 5000 search_queries
              {| all_places_found := []; place_ids_found := ∅; trace := w |})
    as (evs & Htrace & Hts & Hkey).
  rewrite <- Hs in Htrace. clear Hs. cbn [trace] in Htrace.
  exists evs. split; [exact Htrace|]. split; [exact Hts|].
  eapply Forall_impl; [exact Hkey|]. intros [] He; done.
Qed.

Lemma discovery_sends_every_query_witness :
  exists (raw_deals : list venue) (w' : list event),
    fetch_happy_hour_data_live Demo.env_timeout Demo.origin_lat Demo.origin_lng 5 []
    = (Ok raw_deals, w')
    /\ length (List.filter is_text_search w') = 11.
Proof.
  assert (exists raw_deals w',
             fetch_happy_hour_data_live Demo.env_timeout Demo.origin_lat
               Demo.origin_lng 5 [] = (Ok raw_deals, w'))
    as (raw_deals & w' & Hfetch) by (eexists _, _; vm_compute; reflexivity).
  exists raw_deals, w'. split; [exact Hfetch|].
  destruct (discovery_sends_every_query _ _ _ _ _ _ Hfetch) as (evs & Hw & Hts & _).
  simpl in Hw. subst w'. rewrite Hts. reflexivity.
Defined.

(** X2. Every request that discovery sends carries the configured key,
    and that key is neither empty nor the placeholder: without a usable
    key nothing is sent at all. *)
Theorem discovery_never_sends_placeholder (env : environment)
    (lat lng radius_km : Q) (w : list event) :
  exists evs,
    (fetch_happy_hour_data_live env lat lng radius_km w).2 = w ++ evs
    /\ Forall (fun e => event_key e = Some (GOOGLE_PLACES_API_KEY env)
                        /\ GOOGLE_PLACES_API_KEY env <> ""
                        /\ GOOGLE_PLACES_API_KEY env <> API_KEY_PLACEHOLDER) evs.
Proof.
  unfold fetch_happy_hour_data_live.
  destruct (String.eqb_spec (GOOGLE_PLACES_API_KEY env) "") as [|Hne].
  { exists []. by rewrite app_nil_r. }
  destruct (String.eqb_spec (GOOGLE_PLACES_API_KEY env) API_KEY_PLACEHOLDER) as [|Hnp].
  { exists []. by rewrite app_nil_r. }
  cbn [orb snd].
  destruct (run_queries_events env lat lng (int_of_float (radius_km * 1000))
              search_queries
              {| all_places_found := []; place_ids_found := ∅; trace := w |})
    as (evs & Htrace & _ & Hkey).
  set (s := fold_left _ _ _) in *. clearbody s. cbn [trace] in Htrace.
  exists evs. split; [exact Htrace|].
  eapply Forall_impl; [exact Hkey|]. intros e He. split; [exact He|]. by split.
Qed.

(** ** What every candidate and every deal of a run satisfies *)

Section Candidates.

Variable env : environment.

Lemma visit_place_shape (place : place_json) (s : discovery) :
  all_places_found (visit_place env place s).2 = all_places_found s
  \/ exists place_id place_lat place_lng detailed_place mention,
       place_id <> ""
       /\ all_places_found (visit_place env place s).2
          = all_places_found s
              ++ [venue_of place_id place_lat place_lng place detailed_place mention].
Proof.
  unfold visit_place.
  destruct (p_place_id place) as [place_id|]; [|by left].
  destruct (String.eqb_spec place_id "") as [|Hne]; [by left|].
  destruct (bool_decide _); [|by left]. cbn [negb andb].
  destruct (p_geometry place) as [|place_lat place_lng|]; try by left.
  destruct (place_details env _ place_id) as [e|status result]; [by left|].
  destruct (has_happy_hour_mention _) as [mention|e] eqn:E; [|by left].
  right. by eexists place_id, place_lat, place_lng, _, mention.
Qed.

(** A property of every venue that [venue_of] can build holds for every
    venue that the loops of discovery collect. *)
Lemma run_queries_Forall (P : venue -> Prop) (la ln : Q) (r : Z)
    (qs : list string) (s : discovery) :
  (forall place_id place_lat place_lng place detailed_place mention,
      place_id <> "" ->
      P (venue_of place_id place_lat place_lng place detailed_place mention)) ->
  Forall P (all_places_found s) ->
  Forall P (all_places_found (fold_left (run_query env la ln r) qs s)).
Proof.
  intros HP.
  assert (forall place s, Forall P (all_places_found s) ->
                          Forall P (all_places_found (visit_place env place s).2))
    as Hvisit.
  { intros place s0 Hs0.
    destruct (visit_place_shape place s0)
      as [-> | (id & pla & pln & det & m & Hid & ->)]; [done|].
    apply Forall_app. split; [done|]. constructor; [by apply HP | constructor]. }
  assert (forall results s, Forall P (all_places_found s) ->
                            Forall P (all_places_found (scan_results env results s).2))
    as Hscan.
  { induction results as [|place rest IH]; intros s0 Hs0; simpl; [done|].
    pose proof (Hvisit place s0 Hs0) as Hv.
    destruct (visit_place env place s0) as [[[]|e] s']; simpl in *; [|done].
    by apply IH. }
  revert s. induction qs as [|q qs IH]; intros s Hs; simpl; [done|].
  apply IH. unfold run_query.
  destruct (textsearch env _ q _ r) as [e|status results]; [done|].
  destruct (String.eqb status "OK"); [|done].
  destruct results as [results|]; [|done].
  by apply Hscan.
Qed.

Lemma filter_by_distance_Forall (P : venue -> Prop) (la ln radius_km : Q)
    (places : list venue) :
  (forall v d, P v -> P (set_distance_km d v)) ->
  Forall P places -> Forall P (filter_by_distance env la ln radius_km places).
Proof.
  intros Hset. induction 1 as [|place rest Hp _ IH]; simpl; [done|].
  destruct (dist_leb _ _); [|done]. constructor; [by apply Hset | done].
Qed.

Lemma filter_by_distance_within (la ln radius_km : Q) (places : list venue) :
  Forall (fun v => exists d,
              v_distance_km v = Some (Km d) /\ (d <= radius_km)%Q
              /\ calculate_distance_km env la ln (v_lat v) (v_lng v) = Km d)
         (filter_by_distance env la ln radius_km places).
Proof.
  induction places as [|place rest IH]; simpl; [done|].
  destruct (calculate_distance_km env la ln (v_lat place) (v_lng place))
    as [d|] eqn:E; simpl; [|done].
  destruct (Qle_bool d radius_km) eqn:Hle; [|done].
  constructor; [|done]. exists d. simpl. by rewrite E, <- Qle_bool_iff.
Qed.

Lemma fetch_Forall (P : venue -> Prop) (la ln radius_km : Q) (w : list event) :
  (forall place_id place_lat place_lng place detailed_place mention,
      place_id <> "" ->
      P (venue_of place_id place_lat place_lng place detailed_place mention)) ->
  (forall v d, P v -> P (set_distance_km d v)) ->
  match (fetch_happy_hour_data_live env la ln radius_km w).1 with
  | Ok raw_deals => Forall P raw_deals
  | Raise _ => True
  end.
Proof.
  intros HP Hset.
  destruct (fetch_happy_hour_data_live env la ln radius_km w) as [[raw|e] w'] eqn:E;
    [|done].
  apply fetch_ok in E as (s & Hs & -> & _).
  apply filter_by_distance_Forall; [exact Hset|].
  rewrite Hs. apply run_queries_Forall; [exact HP | constructor].
Qed.

Lemma sorted_formatted_deals_Forall_from (la ln : Q) (raw_deals : list venue)
    (Q : venue -> Prop) (P : deal -> Prop) :
  (forall raw_deal, Q raw_deal -> P (format_deal raw_deal)) ->
  Forall Q raw_deals ->
  Forall P (sorted_formatted_deals env la ln raw_deals).
Proof.
  intros HP HQ. unfold sorted_formatted_deals. rewrite sorted_perm.
  induction HQ; simpl; constructor; auto.
Qed.

Lemma fetch_within_radius (la ln radius_km : Q) (w w' : list event)
    (raw_deals : list venue) :
  fetch_happy_hour_data_live env la ln radius_km w = (Ok raw_deals, w') ->
  Forall (fun v => exists d,
              v_distance_km v = Some (Km d) /\ (d <= radius_km)%Q
              /\ calculate_distance_km env la ln (v_lat v) (v_lng v) = Km d)
         raw_deals.
Proof.
  intros (s & _ & -> & _)%fetch_ok. apply filter_by_distance_within.
Qed.

End Candidates.

(** X3. Every candidate that discovery returns lies within the radius:
    its distance from the origin could be computed, is finite, is at
    most [radius_km], and is the value recorded in ["distance_km"]. A
    place whose distance cannot be computed is never returned. *)
Theorem discovery_within_radius (env : environment) (lat lng radius_km : Q)
    (w w' : list event) (raw_deals : list venue) :
  fetch_happy_hour_data_live env lat lng radius_km w = (Ok raw_deals, w') ->
  Forall (fun v => exists d,
              v_distance_km v = Some (Km d) /\ (d <= radius_km)%Q
              /\ calculate_distance_km env lat lng (v_lat v) (v_lng v) = Km d)
         raw_deals.
Proof.
  apply fetch_within_radius.
Qed.

Lemma discovery_within_radius_witness :
  exists (raw_deals : list venue) (w' : list event),
    fetch_happy_hour_data_live Demo.env_one_bar Demo.origin_lat Demo.origin_lng 5 []
    = (Ok raw_deals, w')
    /\ v_place_id <$> raw_deals = ["A"]
    /\ Forall (fun v => exists d,
                   v_distance_km v = Some (Km d) /\ (d <= 5)%Q
                   /\ calculate_distance_km Demo.env_one_bar Demo.origin_lat
                        Demo.origin_lng (v_lat v) (v_lng v) = Km d)
              raw_deals.
Proof.
  assert (exists raw_deals w',
             fetch_happy_hour_data_live Demo.env_one_bar Demo.origin_lat
               Demo.origin_lng 5 [] = (Ok raw_deals, w')
             /\ v_place_id <$> raw_deals = ["A"])
    as (raw_deals & w' & Hfetch & Hd)
    by (eexists _, _; split; vm_compute; reflexivity).
  exists raw_deals, w'. split; [exact Hfetch|]. split; [exact Hd|].
  exact (discovery_within_radius _ _ _ _ _ _ _ Hfetch).
Defined.

(** X4. Every deal that the collector stores lies within its fixed
    radius of 5 km from the origin of the state, by the very distance
    the final sort uses as its key. *)
Theorem collected_deals_within_5km (env : environment) (lat lng : Q)
    (name : string) (w : list event) :
  Forall (fun d => dist_leb (distance_from env lat lng d) (Km 5) = true)
         (happy_hour_deals (data_collector_agent env (initial_state lat lng name) w).1).
Proof.
  unfold data_collector_agent. simpl.
  destruct (fetch_happy_hour_data_live env lat lng 5 w) as [[raw|e] w'] eqn:E;
    simpl; [|done].
  eapply sorted_formatted_deals_Forall_from;
    [|exact (fetch_within_radius _ _ _ _ _ _ _ E)].
  intros v (d & _ & Hle & Hd). unfold distance_from. simpl.
  rewrite Hd. simpl. by apply Qle_bool_iff.
Qed.

(** X5. The clamp of the collector never acts on a deal of a run: every
    deal of the run is valid for 2, 2.5 or 3 hours, the durations of the
    classification. *)
Theorem collected_deals_durations (env : environment) (lat lng : Q)
    (name : string) (w : list event) :
  Forall (fun d => offer_validity_hours d = 2%Q
                   \/ offer_validity_hours d = (5 # 2)%Q
                   \/ offer_validity_hours d = 3%Q)
         (happy_hour_deals (app_invoke env (initial_state lat lng name) w).1).
Proof.
  assert (happy_hour_deals (app_invoke env (initial_state lat lng name) w).1
          = happy_hour_deals (data_collector_agent env (initial_state lat lng name) w).1)
    as ->.
  { unfold app_invoke.
    destruct (data_collector_agent env _ w) as [state w1]; simpl.
    destruct (decide_next_step state); simpl; [done|done|].
    by destruct (whistle_api_creator_agent_cases env state w1) as (st & w2 & ->). }
  unfold data_collector_agent. simpl.
  pose proof (fetch_Forall env
                (fun v => exists c, v_validity_hours v = duration_by_rules c)
                lat lng 5 w) as H.
  destruct (fetch_happy_hour_data_live env lat lng 5 w) as [[raw|e] w'];
    simpl in *; [|done].
  eapply sorted_formatted_deals_Forall_from; [|apply H].
  - intros v [c Hc]. unfold format_deal. simpl. rewrite Hc.
    destruct (duration_by_rules_values c) as [Hv|[Hv|Hv]]; rewrite Hv; auto.
  - intros. eexists. apply confirm_offer_duration.
  - by intros v d [c Hc]; exists c.
Qed.

(** ** The workflow as a whole *)

(** X6. Without a latitude or a longitude the collector records its own
    error message and touches nothing else: no request is sent, and the
    run stops there, at [end_with_error]. *)
Theorem run_without_coordinates (env : environment) (state : GraphState)
    (w : list event) :
  lat state = None \/ lng state = None ->
  app_invoke env state w
  = (set_error_message
       "Latitude and Longitude are required inputs for data collection." state, w)
  /\ decide_next_step (data_collector_agent env state w).1 = end_with_error.
Proof.
  intros H.
  assert (data_collector_agent env state w
          = (set_error_message
               "Latitude and Longitude are required inputs for data collection."
               state, w)) as Hc.
  { unfold data_collector_agent. destruct H as [-> | ->]; [done|].
    by destruct (lat state). }
  unfold app_invoke. rewrite Hc. done.
Qed.

Lemma run_without_coordinates_witness :
  let state := {| lat := None; lng := Some Demo.origin_lng; happy_hour_deals := [];
                  api_creation_status := ""; error_message := "";
                  location_name := "nowhere" |} in
  lat state = None
  /\ (app_invoke Demo.env_one_bar state []).2 = []
  /\ error_message (app_invoke Demo.env_one_bar state []).1
     = "Latitude and Longitude are required inputs for data collection.".
Proof.
  intros state. split; [reflexivity|].
  destruct (run_without_coordinates Demo.env_one_bar state [] (or_introl eq_refl))
    as [-> _].
  split; reflexivity.
Defined.

Lemma data_collector_agent_error (env : environment) (state : GraphState)
    (w : list event) :
  error_message state <> "" ->
  error_message (data_collector_agent env state w).1 <> "".
Proof.
  intros Hne.
  destruct (data_collector_agent_cases env state w)
    as [(deals & w' & ->) | (e & w' & -> & He)]; done.
Qed.

(** X7. The collector never clears an error message. A run that starts
    from a state with a message already in it ends at [end_with_error]
    and publishes nothing, whatever discovery finds. *)
Theorem stale_error_blocks_publishing (env : environment) (state : GraphState)
    (w : list event) :
  error_message state <> "" ->
  decide_next_step (data_collector_agent env state w).1 = end_with_error
  /\ app_invoke env state w = data_collector_agent env state w
  /\ publish_calls (app_invoke env state w).2 = publish_calls w.
Proof.
  intros Hne.
  pose proof (data_collector_agent_error env state w Hne) as He.
  pose proof (data_collector_agent_trace env state w) as Ht.
  apply network_extension_publish in Ht.
  assert (decide_next_step (data_collector_agent env state w).1 = end_with_error) as Hd.
  { unfold decide_next_step.
    by destruct (String.eqb_spec (error_message (data_collector_agent env state w).1) ""). }
  unfold app_invoke.
  destruct (data_collector_agent env state w) as [state1 w1]; simpl in *.
  rewrite Hd. done.
Qed.

Lemma stale_error_blocks_publishing_witness :
  let state := set_error_message "left over"
                 (initial_state Demo.origin_lat Demo.origin_lng "New York") in
  error_message state <> ""
  /\ length (happy_hour_deals (app_invoke Demo.env_one_bar state []).1) = 1
  /\ publish_calls (app_invoke Demo.env_one_bar state []).2 = [].
Proof.
  intros state.
  assert (error_message state <> "") as Hne by discriminate.
  split; [exact Hne|]. split; [vm_compute; reflexivity|].
  apply (stale_error_blocks_publishing Demo.env_one_bar state [] Hne).
Defined.

Lemma publishing_stub_status_aux (env : environment) (d : deal) (ds : list deal)
    (w : list event) :
  exists w',
    create_whistle_api_mock env (d :: ds) w
    = (Ok "Whistle API successfully created/updated with new happy hour deals.", w')
    /\ publish_calls w' = publish_calls w ++ [d :: ds].
Proof.
  unfold create_whistle_api_mock.
  destruct (sound_file_exists env); [destruct (playsound env _)|];
    eexists; (split; [reflexivity|]);
    unfold publish_calls; rewrite ?omap_app; simpl; by rewrite ?app_nil_r.
Qed.

(** X8. The publishing stub never raises. It reports success exactly
    when it is given at least one deal, whether or not the sound file
    exists or plays, and it is called once with the list it was given. *)
Theorem publishing_stub_status (env : environment) (deals_json : list deal)
    (w : list event) :
  exists status w',
    create_whistle_api_mock env deals_json w = (Ok status, w')
    /\ (status = "Whistle API successfully created/updated with new happy hour deals."
        <-> deals_json <> [])
    /\ (status = "Whistle API creation failed: No deals to publish."
        <-> deals_json = [])
    /\ publish_calls w' = publish_calls w ++ [deals_json]
    /\ Forall (fun e => is_network_call e = false) (drop (length w) w').
Proof.
  unfold create_whistle_api_mock.
  destruct deals_json as [|d ds].
  - eexists _, _. split; [reflexivity|]. repeat split; try done.
    + unfold publish_calls. by rewrite omap_app.
    + rewrite drop_app_length. by repeat constructor.
  - assert (forall evs : list event,
               Forall (fun e => is_network_call e = false) evs ->
               publish_calls evs = [] ->
               publish_calls ((w ++ [Publish (d :: ds)]) ++ evs)
               = publish_calls w ++ [d :: ds]
               /\ Forall (fun e => is_network_call e = false)
                         (drop (length w) ((w ++ [Publish (d :: ds)]) ++ evs)))
      as Hevs.
    { intros evs Hn Hp. split.
      - unfold publish_calls in *. rewrite !omap_app, Hp. simpl. by rewrite app_nil_r.
      - rewrite <- app_assoc, drop_app_length. by constructor. }
    destruct (sound_file_exists env); [destruct (playsound env _)|];
      eexists _, _; (split; [reflexivity|]); (split; [done|]); (split; [done|]).
    + by apply Hevs; [repeat constructor|].
    + rewrite <- (app_nil_r (w ++ _)). by apply Hevs.
    + rewrite <- (app_nil_r (w ++ _)). by apply Hevs.
Qed.

(** X9. A run from the state that [main] builds ends in one of three
    ways: with an error message, no deals and no publish status; with
    nothing at all, when no deal was found; or with deals, the success
    status of the publishing stub and one call of the stub with exactly
    these deals. The two "nothing to publish" statuses never reach the
    final state. *)
Theorem run_outcome (env : environment) (lat lng : Q) (name : string)
    (w : list event) :
  let final := app_invoke env (initial_state lat lng name) w in
  (error_message final.1 <> "" /\ happy_hour_deals final.1 = []
   /\ api_creation_status final.1 = "" /\ publish_calls final.2 = publish_calls w)
  \/ (error_message final.1 = "" /\ happy_hour_deals final.1 = []
      /\ api_creation_status final.1 = "" /\ publish_calls final.2 = publish_calls w)
  \/ (error_message final.1 = "" /\ happy_hour_deals final.1 <> []
      /\ api_creation_status final.1
         = "Whistle API successfully created/updated with new happy hour deals."
      /\ publish_calls final.2 = publish_calls w ++ [happy_hour_deals final.1]).
Proof.
  cbv zeta.
  pose proof (data_collector_agent_trace env (initial_state lat lng name) w) as Ht.
  apply network_extension_publish in Ht.
  unfold app_invoke.
  destruct (data_collector_agent_cases env (initial_state lat lng name) w)
    as [(deals & w1 & Hc) | (e & w1 & Hc & He)]; rewrite Hc in *; simpl in Ht.
  - destruct deals as [|d ds]; [right; left; done|].
    right; right. cbn [decide_next_step set_happy_hour_deals initial_state
                       error_message happy_hour_deals String.eqb negb conditional_edges].
    unfold whistle_api_creator_agent.
    cbn [happy_hour_deals set_happy_hour_deals].
    destruct (publishing_stub_status_aux env d ds w1) as (w2 & -> & Hp).
    simpl. by rewrite Hp, Ht.
  - left. unfold decide_next_step. simpl.
    destruct (String.eqb_spec e "") as [|_]; done.
Qed.

Lemma create_whistle_api_mock_events (env : environment) (deals_json : list deal)
    (w : list event) :
  exists rest,
    (create_whistle_api_mock env deals_json w).2 = w ++ Publish deals_json :: rest
    /\ Forall (fun e => is_network_call e = false) rest
    /\ publish_calls rest = [].
Proof.
  unfold create_whistle_api_mock.
  destruct deals_json as [|d ds]; [exists []; done|].
  destruct (sound_file_exists env); [destruct (playsound env _)|]; simpl.
  - exists [Playsound "whistle1.mp3"]. rewrite <- app_assoc. by repeat constructor.
  - by exists [].
  - by exists [].
Qed.

(** X10. In every run the network calls come first and the publishing
    comes last: the events of a run are network calls, followed by at
    most one call of the publishing stub and its sound. Nothing is
    published before discovery is over, and nothing is fetched after. *)
Theorem run_fetches_then_publishes (env : environment) (state : GraphState)
    (w : list event) :
  exists net rest,
    (app_invoke env state w).2 = w ++ net ++ rest
    /\ Forall (fun e => is_network_call e = true) net
    /\ Forall (fun e => is_network_call e = false) rest
    /\ length (publish_calls rest) <= 1.
Proof.
  destruct (data_collector_agent_trace env state w) as (net & Hw1 & Hnet).
  unfold app_invoke.
  destruct (data_collector_agent env state w) as [state1 w1]; simpl in Hw1. subst w1.
  assert (exists rest, (w ++ net) = w ++ net ++ rest
                       /\ Forall (fun e => is_network_call e = true) net
                       /\ Forall (fun e => is_network_call e = false) rest
                       /\ length (publish_calls rest) <= 1) as Hstop.
  { exists []. rewrite app_nil_r. repeat split; [done|constructor|simpl; lia]. }
  destruct (decide_next_step state1); simpl; [by exists net|by exists net|].
  unfold whistle_api_creator_agent.
  destruct (happy_hour_deals state1) as [|d ds]; [by exists net|].
  destruct (create_whistle_api_mock_events env (d :: ds) (w ++ net))
    as (rest & Hw2 & Hrest & Hp).
  destruct (create_whistle_api_mock env (d :: ds) (w ++ net)) as [[status|e] w2];
    simpl in *; subst w2; exists net, (Publish (d :: ds) :: rest);
    (split; [by rewrite <- app_assoc|]); (split; [done|]);
    (split; [by constructor|]);
    change (publish_calls (Publish (d :: ds) :: rest))
      with ((d :: ds) :: publish_calls rest);
    rewrite Hp; simpl; lia.
Qed.

(** ** Queries that bring nothing *)

Section Nothing.

Variable env : environment.

Lemma scan_results_passed_over (results : list place_json) (s : discovery) :
  Forall (passed_over s) results -> scan_results env results s = (Ok (), s).
Proof.
  induction 1 as [|place rest Hp _ IH]; simpl; [done|].
  assert (visit_place env place s = (Ok (), s)) as ->; [|done].
  unfold visit_place, passed_over in *.
  destruct (p_place_id place) as [place_id|]; [|done].
  destruct Hp as [-> | [Hin | Hgeo]]; [done| |].
  - rewrite (bool_decide_eq_false_2 (place_id ∉ place_ids_found s)) by tauto.
    by rewrite andb_false_r.
  - rewrite Hgeo. by destruct (_ && _).
Qed.

Lemma run_query_brings_nothing (la ln : Q) (r : Z) (s : discovery) (q : string) :
  brings_nothing (textsearch env (length (trace s)) q (la, ln) r) ->
  run_query env la ln r s q
  = log_event (TextSearch q (la, ln) r (GOOGLE_PLACES_API_KEY env)) s.
Proof.
  unfold run_query, brings_nothing.
  destruct (textsearch env _ q _ r) as [e|status results]; [done|].
  destruct (String.eqb_spec status "OK") as [->|]; [|done].
  intros [H | [-> | ->]]; done.
Qed.

Lemma run_queries_bring_nothing (la ln : Q) (r : Z) (qs : list string) (s : discovery) :
  (forall n q loc r, brings_nothing (textsearch env n q loc r)) ->
  fold_left (run_query env la ln r) qs s
  = {| all_places_found := all_places_found s;
       place_ids_found := place_ids_found s;
       trace := trace s
                  ++ map (fun q => TextSearch q (la, ln) r (GOOGLE_PLACES_API_KEY env)) qs |}.
Proof.
  intros Hnothing. revert s. induction qs as [|q qs IH]; intros s; simpl.
  - rewrite app_nil_r. by destruct s.
  - rewrite run_query_brings_nothing by apply Hnothing.
    rewrite IH. unfold log_event. simpl. by rewrite <- app_assoc.
Qed.

End Nothing.

(** X11. When every text search fails or brings no place, the run does
    not end as an error: it sends its eleven searches, no details
    request, and ends at [end_no_deals] with the state it started from,
    the error message still empty. *)
Theorem failed_searches_end_as_no_deals (env : environment) (la ln : Q)
    (name : string) (w : list event) :
  GOOGLE_PLACES_API_KEY env <> "" ->
  GOOGLE_PLACES_API_KEY env <> API_KEY_PLACEHOLDER ->
  (forall n q loc r, brings_nothing (textsearch env n q loc r)) ->
  let final := app_invoke env (initial_state la ln name) w in
  final.1 = initial_state la ln name
  /\ decide_next_step final.1 = end_no_deals
  /\ final.2 = w ++ map (fun q => TextSearch q (la, ln) 5000 (GOOGLE_PLACES_API_KEY env))
                        search_queries.
Proof.
  intros Hne Hnp Hnothing.
  assert (fetch_happy_hour_data_live env la ln 5 w
          = (Ok [], w ++ map (fun q => TextSearch q (la, ln) 5000
                                         (GOOGLE_PLACES_API_KEY env))
                             search_queries)) as Hfetch.
  { unfold fetch_happy_hour_data_live.
    destruct (String.eqb_spec (GOOGLE_PLACES_API_KEY env) "") as [|_]; [done|].
    destruct (String.eqb_spec (GOOGLE_PLACES_API_KEY env) API_KEY_PLACEHOLDER)
      as [|_]; [done|].
    cbn [orb]. by rewrite run_queries_bring_nothing. }
  cbv zeta. unfold app_invoke, data_collector_agent.
  cbn [lat lng initial_state]. rewrite Hfetch. done.
Qed.

Lemma failed_searches_end_as_no_deals_witness :
  let final := app_invoke env_offline
                 (initial_state Demo.origin_lat Demo.origin_lng "New York") [] in
  GOOGLE_PLACES_API_KEY env_offline = "k"
  /\ error_message final.1 = "" /\ happy_hour_deals final.1 = []
  /\ length final.2 = 11.
Proof.
  split; [reflexivity|].
  destruct (failed_searches_end_as_no_deals env_offline Demo.origin_lat
              Demo.origin_lng "New York" []) as (H1 & _ & H2).
  - discriminate.
  - discriminate.
  - intros n q loc r. exact I.
  - cbv zeta. rewrite H1, H2. repeat split.
Defined.

(** X12. A query whose results are all known already, or have no
    identifier or no location, costs one request only: no details
    request is sent and nothing changes but the trace. *)
Theorem known_places_cost_nothing (env : environment) (lat lng : Q) (r : Z)
    (s : discovery) (query_term : string) (results : list place_json) :
  textsearch env (length (trace s)) query_term (lat, lng) r
  = SearchData "OK" (Some results) ->
  Forall (passed_over s) results ->
  run_query env lat lng r s query_term
  = log_event (TextSearch query_term (lat, lng) r (GOOGLE_PLACES_API_KEY env)) s.
Proof.
  intros Hsearch Hpassed. unfold run_query. rewrite Hsearch. simpl.
  by rewrite (scan_results_passed_over env results (log_event _ s)).
Qed.

Lemma known_places_cost_nothing_witness :
  let s := {| all_places_found := []; place_ids_found := {[ "A" ]}; trace := [] |} in
  Forall (passed_over s) [Demo.the_tap]
  /\ trace (run_query Demo.env_one_bar Demo.origin_lat Demo.origin_lng 5000 s "bar")
     = [TextSearch "bar" (Demo.origin_lat, Demo.origin_lng) 5000 "k"].
Proof.
  intros s.
  assert (Forall (passed_over s) [Demo.the_tap]) as Hp.
  { constructor; [|constructor].
    change ("A" = "" \/ "A" ∈ place_ids_found s \/ p_geometry Demo.the_tap = NoLocation).
    right. left. unfold s. cbn [place_ids_found]. by apply elem_of_singleton. }
  split; [exact Hp|].
  by rewrite (known_places_cost_nothing Demo.env_one_bar Demo.origin_lat
                Demo.origin_lng 5000 s "bar" [Demo.the_tap] eq_refl Hp).
Defined.

(** ** Candidates that come in order of distance *)

Lemma dist_leb_not_ltb (a b : distance) : dist_leb a b = true -> dist_ltb b a = false.
Proof.
  destruct a, b; simpl; try done.
  rewrite Qle_bool_iff. intros H. by apply Qlt_bool_false_iff.
Qed.

Lemma sorted_of_ordered {A : Type} (key : A -> distance) (l : list A) :
  StronglySorted (key_le key) l -> sorted key l = l.
Proof.
  induction 1 as [|x l Hsorted IH Hx]; [done|].
  cbn [sorted foldr]. fold (sorted key l). rewrite IH.
  destruct l as [|y l']; [done|]. simpl.
  apply Forall_cons in Hx as [Hxy _].
  by rewrite (dist_leb_not_ltb _ _ Hxy).
Qed.

(** X13. When the candidates already come in ascending order of
    distance, the collector keeps the order of discovery: its deal list
    is the list of their deals, one after the other. In particular,
    sorting the deal list of the collector once more changes nothing. *)
Theorem ordered_candidates_keep_their_order (env : environment) (lat lng : Q)
    (raw_deals raw_deals' : list venue) :
  StronglySorted (key_le (distance_from env lat lng)) (map format_deal raw_deals) ->
  sorted_formatted_deals env lat lng raw_deals = map format_deal raw_deals
  /\ sorted (distance_from env lat lng) (sorted_formatted_deals env lat lng raw_deals')
     = sorted_formatted_deals env lat lng raw_deals'.
Proof.
  intros Hsorted. split.
  - by apply sorted_of_ordered.
  - apply sorted_of_ordered. apply sorted_ordered.
Qed.

Lemma ordered_candidates_keep_their_order_witness :
  let v := venue_of "A" Demo.origin_lat Demo.origin_lng Demo.the_tap Demo.the_tap true in
  let v' := venue_of "B" Demo.origin_lat Demo.origin_lng Demo.corner_pub
              Demo.corner_pub false in
  store_name <$> sorted_formatted_deals Demo.env_one_bar Demo.origin_lat
                   Demo.origin_lng [v; v']
  = [Some "The Tap"; Some "Corner Pub"].
Proof.
  intros v v'.
  destruct (ordered_candidates_keep_their_order Demo.env_one_bar Demo.origin_lat
              Demo.origin_lng [v; v'] []) as [-> _]; [|reflexivity].
  repeat constructor.
Defined.

(** ** What counts as a mention *)

Lemma prefix_spec (a b : string) :
  String.prefix a b = true <-> exists post, b = a +:+ post.
Proof.
  revert b. induction a as [|c a IH]; intros b.
  - split; [by exists b | by destruct b].
  - destruct b as [|d b]; simpl; [split; [done | by intros [post H]]|].
    destruct (Ascii.ascii_dec c d) as [->|Hne].
    + rewrite IH. split; intros [post H]; exists post; [by rewrite H | by injection H].
    + split; [done|]. intros [post H]. injection H as Hcd _. by symmetry in Hcd.
Qed.

Lemma contains_spec (needle hay : string) :
  Str.contains needle hay = true <-> exists pre post, hay = pre +:+ needle +:+ post.
Proof.
  induction hay as [|c hay IH]; cbn [Str.contains].
  - rewrite orb_false_r, prefix_spec. split.
    + intros [post H]. by exists "", post.
    + intros (pre & post & H). destruct pre; [by exists post|done].
  - rewrite orb_true_iff, prefix_spec, IH. split.
    + intros [[post H] | (pre & post & H)].
      * by exists "", post.
      * exists (String c pre), post. by rewrite H.
    + intros (pre & post & H). destruct pre as [|c' pre]; simpl in H.
      * left. by exists post.
      * right. injection H as _ H. by exists pre, post.
Qed.

(** X14. A review counts as a mention exactly when its text, in lower
    case, holds one of the six keywords as a run of consecutive
    characters, anywhere in the text and not only as a word of its
    own. *)
Theorem mention_is_substring (t : option string) :
  review_mentions t = true
  <-> exists keyword pre post,
        In keyword [ "happy hour"; "drink special"; "half price";
                     "discount"; "specials"; "deal" ]
        /\ Str.lower (default "" t) = pre +:+ keyword +:+ post.
Proof.
  unfold review_mentions, any_keyword_in. rewrite existsb_exists. split.
  - intros (keyword & Hin & (pre & post & H)%contains_spec). by exists keyword, pre, post.
  - intros (keyword & pre & post & Hin & H). exists keyword. split; [done|].
    apply contains_spec. by exists pre, post.
Qed.

Lemma scan_reviews_raises (reviews : list review_json) :
  (exists e, scan_reviews reviews = Raise e)
  <-> exists pre post,
        reviews = (Review <$> pre) ++ BadReview :: post
        /\ Forall (fun t => review_mentions t = false) pre.
Proof.
  induction reviews as [|[t|] reviews IH]; simpl.
  - split; [by intros [e H]|]. intros (pre & post & H & _). by destruct pre.
  - fold (review_mentions t). destruct (review_mentions t) eqn:Ht.
    + split; [by intros [e H]|]. intros (pre & post & H & Hpre).
      destruct pre as [|t' pre]; [done|]. injection H as -> _.
      apply Forall_cons in Hpre as [Hpre _]. congruence.
    + rewrite IH. split.
      * intros (pre & post & -> & Hpre). exists (t :: pre), post. by split; [|constructor].
      * intros (pre & post & H & Hpre). destruct pre as [|t' pre]; [done|].
        injection H as -> ->. apply Forall_cons in Hpre as [_ Hpre]. by exists pre, post.
  - split; [|by eexists]. intros _. exists [], reviews. by split.
Qed.

(** X15. The heuristic fails on a place exactly when, among its first
    five reviews, a malformed one comes before any mention: a review
    that is no object, or whose text is no string. Malformed reviews
    after a mention or beyond the fifth do no harm. *)
Theorem mention_scan_raises (detailed_place : place_json) :
  (exists e, has_happy_hour_mention detailed_place = Raise e)
  <-> exists pre post,
        take 5 (p_reviews detailed_place) = (Review <$> pre) ++ BadReview :: post
        /\ Forall (fun t => review_mentions t = false) pre.
Proof. apply scan_reviews_raises. Qed.

(** ** The text of a confirmed offer *)

Lemma after_char_append_none (c : ascii) (a b : string) :
  Str.after_char c a = None -> Str.after_char c (a +:+ b) = Str.after_char c b.
Proof.
  induction a as [|d a IH]; simpl; [done|].
  destruct (Ascii.eqb c d); [done | exact IH].
Qed.

(** X16. When the name of a place holds no colon, its confirmed offer is
    one of five fixed sentences and does not depend on the name: the
    general "discounted drinks/food" sentence for a place outside every
    category, and for the others the part of the offer of their
    category that follows its colon. *)
Theorem confirmed_offer_sentences (detailed_place : place_json) :
  Str.after_char ":" (default "Unknown Place" (p_name detailed_place)) = None ->
  In (confirm_offer true (offer_by_type detailed_place)).1 confirmed_sentences.
Proof.
  intros Hname. unfold offer_by_type.
  repeat match goal with
         | |- context [if ?b then _ else _] => destruct b
         end;
    try (vm_compute; tauto).
  all: unfold confirm_offer, Str.split_1; cbn [fst].
  all: change (Str.after_char ":"
                 ("Potential happy hour at "
                    +:+ default "Unknown Place" (p_name detailed_place) +:+ "."))
         with (Str.after_char ":"
                 (default "Unknown Place" (p_name detailed_place) +:+ ".")).
  all: rewrite after_char_append_none by done.
  all: vm_compute; tauto.
Qed.

Lemma confirmed_offer_sentences_witness :
  Str.after_char ":" (default "Unknown Place" (p_name Demo.the_inn)) = None
  /\ In (confirm_offer true (offer_by_type Demo.the_inn)).1 confirmed_sentences.
Proof.
  split; [reflexivity|].
  exact (confirmed_offer_sentences Demo.the_inn eq_refl).
Defined.

(** ** One details request for each place *)

Section Lookups.

Variable env : environment.
Hypothesis Hnever : details_never_fail env.

Lemma visit_place_looked_up (w : list event) (place : place_json) (s : discovery) :
  readable place -> looked_up w s -> looked_up w (visit_place env place s).2.
Proof.
  intros [m Hm] (evs & Htrace & Hids). unfold visit_place.
  destruct (p_place_id place) as [place_id|]; [|by exists evs].
  destruct (_ && _); [|by exists evs].
  destruct (p_geometry place) as [|place_lat place_lng|]; try by exists evs.
  destruct Hnever as [Hdetails _]. specialize (Hdetails (length (trace s)) place_id).
  destruct (place_details env _ place_id) as [e|status result]; [done|].
  assert (readable (if bool_decide (status = Some "OK")
                    then default empty_place result else place)) as [m' Hm'].
  { destruct (bool_decide _); [done | by exists m]. }
  rewrite Hm'.
  exists (evs ++ [Details place_id (GOOGLE_PLACES_API_KEY env)]).
  cbn [snd all_places_found trace log_event].
  split; [by rewrite Htrace, <- app_assoc|].
  by rewrite omap_app, fmap_app, Hids.
Qed.

Lemma scan_results_looked_up (w : list event) (results : list place_json)
    (s : discovery) :
  Forall readable results -> looked_up w s ->
  looked_up w (scan_results env results s).2.
Proof.
  intros Hr. revert s. induction Hr as [|place rest Hp _ IH]; intros s Hs; simpl; [done|].
  pose proof (visit_place_looked_up w place s Hp Hs) as Hv.
  destruct (visit_place env place s) as [[[]|e] s']; simpl in *; [|done].
  by apply IH.
Qed.

Lemma run_query_looked_up (w : list event) (la ln : Q) (r : Z) (s : discovery)
    (q : string) :
  looked_up w s -> looked_up w (run_query env la ln r s q).
Proof.
  intros (evs & Htrace & Hids).
  assert (looked_up w (log_event (TextSearch q (la, ln) r (GOOGLE_PLACES_API_KEY env)) s))
    as H1.
  { exists (evs ++ [TextSearch q (la, ln) r (GOOGLE_PLACES_API_KEY env)]).
    cbn [log_event trace all_places_found].
    split; [by rewrite Htrace, <- app_assoc|].
    rewrite omap_app. simpl. by rewrite app_nil_r. }
  unfold run_query.
  destruct Hnever as [_ Hsearch].
  specialize (Hsearch (length (trace s)) q (la, ln) r).
  destruct (textsearch env _ q _ r) as [e|status results]; [done|].
  destruct (String.eqb status "OK"); [|done].
  destruct results as [results|]; [|done].
  by apply scan_results_looked_up.
Qed.

Lemma run_queries_looked_up (w : list event) (la ln : Q) (r : Z) (qs : list string)
    (s : discovery) :
  looked_up w s -> looked_up w (fold_left (run_query env la ln r) qs s).
Proof.
  revert s. induction qs as [|q qs IH]; intros s Hs; simpl; [done|].
  by apply IH, run_query_looked_up.
Qed.

End Lookups.

(** X17. When no details request fails and all reviews can be read,
    discovery asks for the details of each place once: the details
    requests of a run are for pairwise different places, and every
    candidate returned is among them. *)
Theorem one_lookup_for_each_place (env : environment) (lat lng radius_km : Q)
    (w w' : list event) (raw_deals : list venue) :
  details_never_fail env ->
  fetch_happy_hour_data_live env lat lng radius_km w = (Ok raw_deals, w') ->
  exists evs,
    w' = w ++ evs
    /\ NoDup (omap details_of evs)
    /\ v_place_id <$> raw_deals `sublist_of` omap details_of evs.
Proof.
  intros Hnever (s & Hs & -> & -> & _)%fetch_ok.
  pose proof (run_queries_looked_up env Hnever w lat lng
                (int_of_float (radius_km * 1000)) search_queries
                {| all_places_found := []; place_ids_found := ∅; trace := w |})
    as Hlooked.
  pose proof (run_queries_invariant env lat lng
                (int_of_float (radius_km * 1000)) search_queries
                {| all_places_found := []; place_ids_found := ∅; trace := w |})
    as Hinv.
  rewrite <- Hs in Hlooked, Hinv. clear Hs.
  destruct Hlooked as (evs & Htrace & Hids).
  { exists []. cbn [trace all_places_found]. by rewrite app_nil_r. }
  destruct Hinv as [Hnodup _].
  { split; [constructor | by intros v Hv%elem_of_nil]. }
  exists evs. split; [exact Htrace|]. rewrite Hids. split; [exact Hnodup|].
  apply filter_by_distance_ids.
Qed.

Lemma one_lookup_for_each_place_witness :
  details_never_fail Demo.env_twice
  /\ omap details_of
       (fetch_happy_hour_data_live Demo.env_twice Demo.origin_lat Demo.origin_lng 5 []).2
     = ["A"].
Proof.
  assert (details_never_fail Demo.env_twice) as Hnever.
  { split.
    - intros n place_id. by exists false.
    - intros n q loc r. simpl.
      destruct (_ || _); [|done]. constructor; [|constructor]. by exists true. }
  split; [exact Hnever|].
  assert (exists raw_deals w',
             fetch_happy_hour_data_live Demo.env_twice Demo.origin_lat
               Demo.origin_lng 5 [] = (Ok raw_deals, w')
             /\ omap details_of w' = ["A"])
    as (raw_deals & w' & Hfetch & Hw)
    by (eexists _, _; split; vm_compute; reflexivity).
  destruct (one_lookup_for_each_place _ _ _ _ _ _ _ Hnever Hfetch) as (evs & _ & _ & _).
  rewrite Hfetch. exact Hw.
Defined.

(** ** The name of a position *)

Lemma read_components_fields (components : list address_component)
    (info : location_info) :
  let out := fold_left read_component components info in
  i_lat out = i_lat info /\ i_lng out = i_lng info
  /\ i_formatted_address out = i_formatted_address info
  /\ i_city out = match find names_city (rev components) with
                  | Some c => default "Unknown" (c_long_name c)
                  | None => i_city info
                  end
  /\ i_state out = match find names_state (rev components) with
                   | Some c => default "Unknown" (c_long_name c)
                   | None => i_state info
                   end
  /\ i_country out = match find names_country (rev components) with
                     | Some c => default "Unknown" (c_long_name c)
                     | None => i_country info
                     end.
Proof.
  induction components as [|c components IH] using rev_ind; [done|].
  cbv zeta in *. rewrite fold_left_app, rev_app_distr. cbn [fold_left rev app find].
  destruct IH as (Hlat & Hlng & Hfa & Hcity & Hstate & Hcountry).
  unfold read_component, names_city, names_state, names_country.
  destruct (has_type "locality" (c_types c));
    [|destruct (has_type "administrative_area_level_1" (c_types c));
      [|destruct (has_type "country" (c_types c))]];
    cbn [negb andb set_city set_state set_country
         i_lat i_lng i_formatted_address i_city i_state i_country];
    repeat split; assumption || reflexivity.
Qed.

(** X18. When the geocoding service finds the position, the answer
    keeps the coordinates asked for and takes its names from the first
    result only: the city is the long name of the last component of type
    locality, the state that of the last component of type
    administrative_area_level_1 that is no locality, the country that of
    the last component of type country that is neither; a field without
    such a component, or whose component has no long name, is
    "Unknown". *)
Theorem geocoded_names (geocode : Q -> Q -> string -> geocode_outcome)
    (env : environment) (lat lng : Q)
    (result : geocode_result) (others : list geocode_result) :
  geocode lat lng (GOOGLE_PLACES_API_KEY env) = GeocodeData "OK" (result :: others) ->
  let info := get_location_from_coordinates geocode env lat lng in
  let components := g_address_components result in
  i_lat info = lat /\ i_lng info = lng
  /\ i_formatted_address info
     = default "Unknown location" (g_formatted_address result)
  /\ i_city info = last_long_name names_city components
  /\ i_state info = last_long_name names_state components
  /\ i_country info = last_long_name names_country components.
Proof.
  intros Hgeo. unfold get_location_from_coordinates. rewrite Hgeo.
  cbn [String.eqb Ascii.eqb Bool.eqb]. cbv zeta.
  destruct (read_components_fields (g_address_components result)
              (set_formatted_address
                 (default "Unknown location" (g_formatted_address result))
                 {| i_lat := lat; i_lng := lng;
                    i_formatted_address := "Unknown location";
                    i_city := "Unknown"; i_state := "Unknown";
                    i_country := "Unknown" |}))
    as (Hlat & Hlng & Hfa & Hcity & Hstate & Hcountry).
  unfold last_long_name. by repeat split.
Qed.

Lemma geocoded_names_witness :
  let info := get_location_from_coordinates Demo2.geocode_new_york Demo.env_one_bar
                Demo.origin_lat Demo.origin_lng in
  i_city info = "New York" /\ i_state info = "New York State"
  /\ i_country info = "United States".
Proof.
  destruct (geocoded_names Demo2.geocode_new_york Demo.env_one_bar
              Demo.origin_lat Demo.origin_lng _ _ eq_refl)
    as (_ & _ & _ & Hcity & Hstate & Hcountry).
  cbv zeta. rewrite Hcity, Hstate, Hcountry. repeat split.
Defined.

(** X19. The lookup of a position never fails and never changes the
    coordinates. Unless the service found the position, the city, the
    state and the country are "Unknown" and the address is one of three
    fixed texts, which tell a network failure from another failure and
    from an answer without a result. *)
Theorem geocode_fallback (geocode : Q -> Q -> string -> geocode_outcome)
    (env : environment) (lat lng : Q) :
  let info := get_location_from_coordinates geocode env lat lng in
  i_lat info = lat /\ i_lng info = lng
  /\ (geocode_found (geocode lat lng (GOOGLE_PLACES_API_KEY env)) = true
      \/ (i_city info = "Unknown" /\ i_state info = "Unknown"
          /\ i_country info = "Unknown"
          /\ i_formatted_address info
             = match geocode lat lng (GOOGLE_PLACES_API_KEY env) with
               | GeocodeRequestError _ => "Location lookup failed (Network Error)"
               | GeocodeError _ => "Location lookup failed"
               | GeocodeData _ _ => "Unknown location"
               end)).
Proof.
  cbv zeta. unfold get_location_from_coordinates, geocode_found.
  destruct (geocode lat lng _) as [e|e|status results];
    [by split; [|split; [|right]]|by split; [|split; [|right]]|].
  destruct (String.eqb status "OK"); [|by split; [|split; [|right]]].
  destruct results as [|result others]; [by split; [|split; [|right]]|].
  destruct (read_components_fields (g_address_components result)
              (set_formatted_address
                 (default "Unknown location" (g_formatted_address result))
                 {| i_lat := lat; i_lng := lng;
                    i_formatted_address := "Unknown location";
                    i_city := "Unknown"; i_state := "Unknown";
                    i_country := "Unknown" |}))
    as (Hlat & Hlng & _).
  cbv zeta in *. auto.
Qed.

(** ** Detecting the position *)

(** X20. The detection sends an address to the geolocation service only
    when ipify reported it, it is not empty and it is a public address:
    a private address, or none, never leaves the machine. *)
Theorem detection_sends_public_address_only (ipify : result string)
    (is_private : string -> result bool) (ipapi : string -> ipapi_outcome)
    (ip_address : string) :
  In (IpapiRequest ip_address) (get_user_location_auto ipify is_private ipapi).2 ->
  ipify = Ok ip_address /\ ip_address <> ""
  /\ is_private ip_address = Ok false.
Proof.
  unfold get_user_location_auto.
  destruct ipify as [ip|e]; simpl; [|by intros [|[]]].
  destruct (String.eqb_spec ip "") as [->|Hne]; simpl; [by intros [|[]]|].
  destruct (is_private ip) as [[|]|e] eqn:Hp; simpl; try by intros [|[]].
  assert (In (IpapiRequest ip_address) [IpifyRequest; IpapiRequest ip]
          -> ip_address = ip) as Hin.
  { intros [H|[H|[]]]; [done | by injection H]. }
  destruct (ipapi ip); simpl; intros ->%Hin; done.
Qed.

Lemma detection_sends_public_address_only_witness :
  let run := get_user_location_auto (Ok "8.8.8.8") (fun _ => Ok false)
               (fun _ => IpapiError "timeout") in
  In (IpapiRequest "8.8.8.8") run.2 /\ run.1 = Ok DEFAULT_LOCATION.
Proof.
  cbv zeta.
  assert (In (IpapiRequest "8.8.8.8")
            (get_user_location_auto (Ok "8.8.8.8") (fun _ => Ok false)
               (fun _ => IpapiError "timeout")).2) as Hin
    by (right; left; reflexivity).
  destruct (detection_sends_public_address_only _ _ _ _ Hin) as (_ & _ & _).
  split; [exact Hin | reflexivity].
Defined.

(** X21. The detection never fails on the network. It raises only when
    ipify reports a text that is no address; otherwise it returns the
    fixed default position, with its coordinates, unless ipify reported
    a public address and the geolocation service answered for it, in
    which case the coordinates are those of the answer, present or
    not. *)
Theorem detection_outcome (ipify : result string)
    (is_private : string -> result bool) (ipapi : string -> ipapi_outcome) :
  match (get_user_location_auto ipify is_private ipapi).1 with
  | Raise e =>
      exists ip, ipify = Ok ip /\ ip <> "" /\ is_private ip = Raise e
  | Ok location =>
      location = DEFAULT_LOCATION
      \/ exists ip location_data,
           ipify = Ok ip /\ is_private ip = Ok false
           /\ ipapi ip = IpapiData location_data
           /\ l_lat location = j_latitude location_data
           /\ l_lng location = j_longitude location_data
           /\ l_location_name location = l_formatted_address location
  end.
Proof.
  unfold get_user_location_auto.
  destruct ipify as [ip|e]; simpl; [|by left].
  destruct (String.eqb_spec ip "") as [->|Hne]; simpl; [by left|].
  destruct (is_private ip) as [[|]|e] eqn:Hp; simpl; [by left| |by exists ip].
  destruct (ipapi ip) as [e|location_data] eqn:Hi; simpl; [by left|].
  right. by exists ip, location_data.
Qed.

(** ** Coordinates typed by the user *)

Section ManualFacts.

Variable input : nat -> string.
Variable float : string -> option Q.
Variable reverse : Q -> Q -> result (option string).
Variable format_coordinates : Q -> Q -> string.

Lemma manual_attempt_next (n next_prompt : nat) :
  manual_attempt input float reverse format_coordinates n = Rejected next_prompt ->
  n <= next_prompt.
Proof.
  unfold manual_attempt.
  repeat match goal with
         | |- context [match ?x with _ => _ end] => destruct x
         end; intros [= <-]; lia.
Qed.

Lemma manual_attempt_accepted (n : nat) (la ln : Q) (name : string) :
  manual_attempt input float reverse format_coordinates n = Accepted la ln name ->
  float (Str.strip (input n)) = Some la
  /\ float (Str.strip (input (n + 1))) = Some ln
  /\ (-90 <= la)%Q /\ (la <= 90)%Q /\ (-180 <= ln)%Q /\ (ln <= 180)%Q
  /\ In (Str.lower (Str.strip (input (n + 2)))) ["y"; "yes"].
Proof.
  unfold manual_attempt.
  destruct (float (Str.strip (input n))) as [la'|]; [|done].
  destruct (float (Str.strip (input (n + 1)))) as [ln'|]; [|done].
  destruct (Qle_bool (-90) la') eqn:H1; [|done].
  destruct (Qle_bool la' 90) eqn:H2; [|done].
  destruct (Qle_bool (-180) ln') eqn:H3; [|done].
  destruct (Qle_bool ln' 180) eqn:H4; [|done].
  cbn [andb negb].
  destruct (bool_decide_reflect
              (Str.lower (Str.strip (input (n + 2))) ∈ ["y"; "yes"])) as [Hin|];
    [|done].
  intros [= <- <- _]. apply Qle_bool_iff in H1, H2, H3, H4.
  by apply list_elem_of_In in Hin.
Qed.

End ManualFacts.

(** X22. Whatever is typed, coordinates that the manual entry returns
    were read from two lines typed one after the other, lie between -90
    and 90 and between -180 and 180, and were confirmed on the next
    line by "y" or "yes", in any case and with spaces around. *)
Theorem manual_coordinates_are_valid (input : nat -> string)
    (float : string -> option Q) (reverse : Q -> Q -> result (option string))
    (format_coordinates : Q -> Q -> string)
    (fuel n : nat) (la ln : Q) (name : string) :
  get_manual_coordinates input float reverse format_coordinates fuel n
  = Some (la, ln, name) ->
  exists m,
    n <= m
    /\ float (Str.strip (input m)) = Some la
    /\ float (Str.strip (input (m + 1))) = Some ln
    /\ (-90 <= la)%Q /\ (la <= 90)%Q /\ (-180 <= ln)%Q /\ (ln <= 180)%Q
    /\ In (Str.lower (Str.strip (input (m + 2)))) ["y"; "yes"].
Proof.
  revert n. induction fuel as [|fuel IH]; intros n; simpl; [done|].
  destruct (manual_attempt input float reverse format_coordinates n)
    as [la' ln' name'|next_prompt] eqn:E.
  - intros [= -> -> ->]. exists n. split; [lia|].
    by eapply manual_attempt_accepted.
  - intros (m & Hm & H)%IH. exists m. split; [|done].
    apply manual_attempt_next in E. lia.
Qed.

Lemma manual_coordinates_are_valid_witness :
  get_manual_coordinates Demo2.typed Demo2.read_float Demo2.no_address
    Demo2.plain_name 5 0
  = Some (Demo.origin_lat, Demo.origin_lng, "Manually entered coordinates")
  /\ (Demo.origin_lat <= 90)%Q.
Proof.
  assert (get_manual_coordinates Demo2.typed Demo2.read_float Demo2.no_address
            Demo2.plain_name 5 0
          = Some (Demo.origin_lat, Demo.origin_lng, "Manually entered coordinates"))
    as Hrun by (vm_compute; reflexivity).
  split; [exact Hrun|].
  destruct (manual_coordinates_are_valid _ _ _ _ _ _ _ _ _ Hrun)
    as (m & _ & _ & _ & _ & Hle & _).
  exact Hle.
Defined.

(** X23. The manual entry returns the first entry that is accepted,
    however many were rejected before it: after [k] rejected passes and
    an accepted one, any run of more than [k] passes returns the
    accepted coordinates. *)
Theorem manual_first_accepted_entry (input : nat -> string)
    (float : string -> option Q) (reverse : Q -> Q -> result (option string))
    (format_coordinates : Q -> Q -> string)
    (k fuel n n' : nat) (la ln : Q) (name : string) :
  after_rejections input float reverse format_coordinates k n = Some n' ->
  manual_attempt input float reverse format_coordinates n' = Accepted la ln name ->
  k < fuel ->
  get_manual_coordinates input float reverse format_coordinates fuel n
  = Some (la, ln, name).
Proof.
  revert fuel n. induction k as [|k IH]; intros fuel n; simpl.
  - intros [= ->] Hacc Hlt. destruct fuel as [|fuel]; [lia|]. simpl. by rewrite Hacc.
  - destruct (manual_attempt input float reverse format_coordinates n)
      as [|next_prompt] eqn:E; [done|].
    intros Hafter Hacc Hlt. destruct fuel as [|fuel]; [lia|]. simpl. rewrite E.
    apply IH; [done|done|lia].
Qed.

Lemma manual_first_accepted_entry_witness :
  after_rejections Demo2.typed Demo2.read_float Demo2.no_address
    Demo2.plain_name 2 0 = Some 5
  /\ get_manual_coordinates Demo2.typed Demo2.read_float Demo2.no_address
       Demo2.plain_name 3 0
     = Some (Demo.origin_lat, Demo.origin_lng, "Manually entered coordinates").
Proof.
  split; [reflexivity|].
  apply (manual_first_accepted_entry Demo2.typed Demo2.read_float Demo2.no_address
           Demo2.plain_name 2 3 0 5); [reflexivity | reflexivity | lia].
Defined.

(** ** More on the candidates *)

Section Provenance.

Variable env : environment.

Lemma visit_place_answered (place : place_json) (s : discovery) :
  all_places_found (visit_place env place s).2 = all_places_found s
  \/ exists v, all_places_found (visit_place env place s).2 = all_places_found s ++ [v]
               /\ answered_by env place v.
Proof.
  unfold visit_place.
  destruct (p_place_id place) as [place_id|] eqn:Hid; [|by left].
  destruct (String.eqb_spec place_id "") as [|Hne]; [by left|].
  destruct (bool_decide _); [|by left]. cbn [negb andb].
  destruct (p_geometry place) as [|place_lat place_lng|] eqn:Hgeo; try by left.
  destruct (place_details env _ place_id) as [e|status result] eqn:Hdet; [by left|].
  fold (record_used place status result).
  destruct (has_happy_hour_mention _) as [mention|e] eqn:Hm; [|by left].
  right. eexists. split; [reflexivity|].
  exists place_id, place_lat, place_lng, (length (trace s)), status, result, mention.
  by repeat split.
Qed.

Lemma scan_results_answered (results : list place_json) (s : discovery) :
  exists new,
    all_places_found (scan_results env results s).2 = all_places_found s ++ new
    /\ Forall (fun v => exists place, In place results /\ answered_by env place v) new.
Proof.
  revert s. induction results as [|place rest IH]; intros s; simpl.
  - exists []. by rewrite app_nil_r.
  - pose proof (visit_place_answered place s) as Hv.
    assert (exists new1,
               all_places_found (visit_place env place s).2 = all_places_found s ++ new1
               /\ Forall (fun v => exists place', In place' (place :: rest)
                                                 /\ answered_by env place' v) new1)
      as (new1 & Heq1 & Hnew1).
    { destruct Hv as [-> | (v & -> & Hv)].
      - exists []. by rewrite app_nil_r.
      - exists [v]. split; [done|]. constructor; [|constructor].
        exists place. split; [by left | done]. }
    destruct (visit_place env place s) as [[[]|e] s']; simpl in *; [|by exists new1].
    destruct (IH s') as (new2 & -> & Hnew2). rewrite Heq1.
    exists (new1 ++ new2). split; [by rewrite app_assoc|].
    apply Forall_app. split; [done|].
    eapply Forall_impl; [exact Hnew2|].
    intros v (place' & Hin & Hv'). exists place'. split; [by right | done].
Qed.

Lemma run_query_found (la ln : Q) (r : Z) (s : discovery) (q : string) :
  exists new,
    all_places_found (run_query env la ln r s q) = all_places_found s ++ new
    /\ Forall (found_among env (la, ln) [q]) new.
Proof.
  unfold run_query.
  assert (exists new : list venue,
             all_places_found s = all_places_found s ++ new
             /\ Forall (found_among env (la, ln) [q]) new) as Hnone.
  { exists []. by rewrite app_nil_r. }
  destruct (textsearch env _ q _ r) as [e|status results] eqn:Hsearch; [done|].
  destruct (String.eqb_spec status "OK") as [->|]; [|done].
  destruct results as [results|]; [|done].
  destruct (scan_results_answered results
              (log_event (TextSearch q (la, ln) r (GOOGLE_PLACES_API_KEY env)) s))
    as (new & Heq & Hnew).
  exists new. split; [exact Heq|].
  eapply Forall_impl; [exact Hnew|].
  intros v (place & Hin & Hv).
  exists (length (trace s)), q, r, results, place.
  split; [by left|]. by repeat split.
Qed.

Lemma run_queries_found (la ln : Q) (r : Z) (qs : list string) (s : discovery) :
  exists new,
    all_places_found (fold_left (run_query env la ln r) qs s) = all_places_found s ++ new
    /\ Forall (found_among env (la, ln) qs) new.
Proof.
  revert s. induction qs as [|q qs IH]; intros s; simpl.
  - exists []. by rewrite app_nil_r.
  - destruct (IH (run_query env la ln r s q)) as (new2 & -> & Hnew2).
    destruct (run_query_found la ln r s q) as (new1 & -> & Hnew1).
    exists (new1 ++ new2). split; [by rewrite app_assoc|].
    apply Forall_app. split.
    + eapply Forall_impl; [exact Hnew1|].
      intros v (n & q' & r' & results & place & Hq & H).
      exists n, q', r', results, place. split; [|done].
      destruct Hq as [<-|[]]. by left.
    + eapply Forall_impl; [exact Hnew2|].
      intros v (n & q' & r' & results & place & Hq & H).
      exists n, q', r', results, place. split; [by right | done].
Qed.

Lemma filter_by_distance_from (P : venue -> Prop) (la ln radius_km : Q)
    (places : list venue) :
  Forall P places ->
  Forall (fun v => exists v0,
              P v0
              /\ v = set_distance_km
                       (calculate_distance_km env la ln (v_lat v0) (v_lng v0)) v0)
         (filter_by_distance env la ln radius_km places).
Proof.
  induction 1 as [|place rest Hp _ IH]; simpl; [done|].
  destruct (dist_leb _ _); [|done]. constructor; [by exists place | done].
Qed.

End Provenance.

(** X24. Every candidate that discovery returns was built from an answer
    of the places API: one of the eleven queries, asked for the origin,
    was answered OK with a result that has the identifier of the
    candidate, not empty, and its position; the details request for it
    was answered and the reviews of the record used could be read; and
    the candidate is the venue made of the two, with its distance added.
    Its address is the one of the record used, else the vicinity of the
    search result, else "Address not available"; its phone and its
    website are those of the record used, else "N/A". *)
Theorem candidates_come_from_answers (env : environment) (lat lng radius_km : Q)
    (w w' : list event) (raw_deals : list venue) :
  fetch_happy_hour_data_live env lat lng radius_km w = (Ok raw_deals, w') ->
  Forall (fun v => exists v0,
              found_among env (lat, lng) search_queries v0
              /\ v = set_distance_km
                       (calculate_distance_km env lat lng (v_lat v0) (v_lng v0)) v0)
         raw_deals.
Proof.
  intros (s & Hs & -> & _)%fetch_ok.
  destruct (run_queries_found env lat lng (int_of_float (radius_km * 1000))
              search_queries
              {| all_places_found := []; place_ids_found := ∅; trace := w |})
    as (new & Heq & Hnew).
  rewrite <- Hs in Heq. clear Hs. cbn [all_places_found app] in Heq.
  rewrite Heq. by apply filter_by_distance_from.
Qed.

Lemma candidates_come_from_answers_witness :
  exists (raw_deals : list venue) (w' : list event),
    fetch_happy_hour_data_live Demo.env_one_bar Demo.origin_lat Demo.origin_lng 5 []
    = (Ok raw_deals, w')
    /\ v_formatted_address <$> raw_deals = ["1 Main St"]
    /\ Forall (fun v => exists v0,
                   found_among Demo.env_one_bar (Demo.origin_lat, Demo.origin_lng)
                     search_queries v0
                   /\ v = set_distance_km
                            (calculate_distance_km Demo.env_one_bar Demo.origin_lat
                               Demo.origin_lng (v_lat v0) (v_lng v0)) v0)
              raw_deals.
Proof.
  assert (exists raw_deals w',
             fetch_happy_hour_data_live Demo.env_one_bar Demo.origin_lat
               Demo.origin_lng 5 [] = (Ok raw_deals, w')
             /\ v_formatted_address <$> raw_deals = ["1 Main St"])
    as (raw_deals & w' & Hfetch & Hp)
    by (eexists _, _; split; vm_compute; reflexivity).
  exists raw_deals, w'. split; [exact Hfetch|]. split; [exact Hp|].
  exact (candidates_come_from_answers _ _ _ _ _ _ _ Hfetch).
Defined.

(** X25. When the details of a place are answered OK but without a
    result, the venue is built from an empty record: the name and the
    types that the search gave are lost, the offer is the general one
    for an unknown place with 2 hours, and only the position and the
    vicinity of the search result remain. *)
Theorem details_without_result (env : environment) (place : place_json)
    (s : discovery) (place_id : string) (place_lat place_lng : Q) :
  p_place_id place = Some place_id -> place_id <> "" ->
  place_id ∉ place_ids_found s ->
  p_geometry place = Location place_lat place_lng ->
  place_details env (length (trace s)) place_id = DetailsData (Some "OK") None ->
  exists v,
    visit_place env place s
    = (Ok (), {| all_places_found := all_places_found s ++ [v];
                 place_ids_found := place_ids_found s ∪ {[ place_id ]};
                 trace := trace s ++ [Details place_id (GOOGLE_PLACES_API_KEY env)] |})
    /\ v_name v = None /\ v_types v = []
    /\ v_details v = "Potential happy hour at Unknown Place."
    /\ v_validity_hours v = 2%Q
    /\ v_lat v = place_lat /\ v_lng v = place_lng
    /\ v_formatted_address v = default "Address not available" (p_vicinity place).
Proof.
  intros Hid Hne Hnew Hgeo Hdet.
  rewrite (visit_place_new env place s place_id place_lat place_lng (Some "OK") None)
    by done.
  rewrite bool_decide_eq_true_2 by done.
  eexists. split; [reflexivity|]. done.
Qed.

Lemma details_without_result_witness :
  let env := Demo.env_with (Some "k") "bar" [Demo.the_tap]
               (fun _ _ => DetailsData (Some "OK") None) in
  let s0 := {| all_places_found := []; place_ids_found := ∅; trace := [] |} in
  p_name Demo.the_tap = Some "The Tap"
  /\ v_name <$> all_places_found (visit_place env Demo.the_tap s0).2 = [None].
Proof.
  intros env s0. split; [reflexivity|].
  assert ("A" ∉ place_ids_found s0) as Hnew by apply not_elem_of_empty.
  destruct (details_without_result env Demo.the_tap s0 "A" Demo.origin_lat
              Demo.origin_lng eq_refl ltac:(discriminate) Hnew eq_refl eq_refl)
    as (v & Hvisit & Hname & _).
  rewrite Hvisit. simpl. by rewrite Hname.
Defined.

(** X26. A whole run keeps the position and the label it was started
    with, and its deals are those of the collection stage: the publish
    stage adds a status and nothing else. *)
Theorem run_keeps_position (env : environment) (state : GraphState)
    (w : list event) :
  let final := (app_invoke env state w).1 in
  lat final = lat state /\ lng final = lng state
  /\ location_name final = location_name state
  /\ happy_hour_deals final = happy_hour_deals (data_collector_agent env state w).1
  /\ error_message final = error_message (data_collector_agent env state w).1.
Proof.
  cbv zeta. unfold app_invoke.
  destruct (data_collector_agent_cases env state w)
    as [(deals & w1 & Hc) | (e & w1 & Hc & He)]; rewrite Hc; cbn [fst snd].
  - destruct (conditional_edges _); try done.
    by destruct (whistle_api_creator_agent_cases env (set_happy_hour_deals deals state) w1)
      as (status & w2 & ->).
  - destruct (conditional_edges _); try done.
    by destruct (whistle_api_creator_agent_cases env (set_error_message e state) w1)
      as (status & w2 & ->).
Qed.
